(** * Authentication core of quote-service: tokens, revocation, lockout

    A shallow embedding of
      - class [JWTUtils]      ([src/utils/jwt.ts]),
      - class [PasswordUtils] ([src/utils/password.ts]),
      - class [UserService]   ([src/services/user.service.ts]),
      - class [AuthService]   (second half of [src/services/quote.service.ts]),
      - the record shapes of [user.model.ts],
    together with the documented behaviour of the third-party libraries
    the code calls ([jsonwebtoken], [bcrypt], the MongoDB driver).

    Conventions.
      - Instants are [Z], in milliseconds since the epoch ([Date.now()]);
        a [Date] is identified with its [getTime()].  Every service method
        that reads the clock takes the instant [now] as an argument and
        reads it once.
      - JavaScript numbers that the code only uses as counters
        ([loginAttempts], [tokenVersion]) are [Z]; double rounding above
        2^53 is outside the model.
      - A [string] is a sequence of code units below 256.
      - [undefined], [null] and a missing key are [None].
      - [logger.info] and [logger.error] are not recorded; the calls of
        [logger.securityEvent] are. *)

From stdpp Require Import base option list strings gmap.
From Stdlib Require Import ZArith Ascii String Lia.

Open Scope string_scope.
Open Scope Z_scope.

(** ** Outcomes of calls that may throw *)

Inductive Outcome (A : Type) : Type :=
| Returned (a : A)
| Thrown (message : string).
Arguments Returned {A} a.
Arguments Thrown {A} message.

(** ** Record shapes of [user.model.ts] *)

Inductive Role := RoleUser | RoleAdmin | RoleModerator.

Definition roleName (r : Role) : string :=
  match r with
  | RoleUser => "user"
  | RoleAdmin => "admin"
  | RoleModerator => "moderator"
  end.

Inductive Theme := Light | Dark.

Record Preferences := {
  theme : Theme;
  emailNotifications : bool;
  quotesPerPage : Z }.

Module User.
Record t := mk {
  id : string;
  email : string;
  username : string;
  password : string;
  firstName : string;
  lastName : string;
  role : Role;
  isActive : bool;
  isEmailVerified : bool;
  emailVerificationToken : option string;
  passwordResetToken : option string;
  passwordResetExpires : option Z;
  lastLoginAt : option Z;
  loginAttempts : Z;
  lockUntil : option Z;
  preferences : Preferences;
  createdAt : Z;
  updatedAt : Z }.
End User.

(** [Omit<User, "password" | "emailVerificationToken" | "passwordResetToken">] *)
Module UserResponse.
Record t := mk {
  id : string;
  email : string;
  username : string;
  firstName : string;
  lastName : string;
  role : Role;
  isActive : bool;
  isEmailVerified : bool;
  passwordResetExpires : option Z;
  lastLoginAt : option Z;
  loginAttempts : Z;
  lockUntil : option Z;
  preferences : Preferences;
  createdAt : Z;
  updatedAt : Z }.
End UserResponse.

(** The object destructuring [{ password, emailVerificationToken,
    passwordResetToken, ...userResponse } = user]. *)
Definition userResponse (u : User.t) : UserResponse.t :=
  UserResponse.mk (User.id u) (User.email u) (User.username u)
    (User.firstName u) (User.lastName u) (User.role u) (User.isActive u)
    (User.isEmailVerified u) (User.passwordResetExpires u)
    (User.lastLoginAt u) (User.loginAttempts u) (User.lockUntil u)
    (User.preferences u) (User.createdAt u) (User.updatedAt u).

(** The JSON object carried by a token.  [TokenPayload] has [userId],
    [email], [role]; [RefreshTokenPayload] has [userId], [tokenVersion];
    [iat], [exp], [iss], [aud] are the registered claims [jsonwebtoken]
    writes and reads.  The casts [as TokenPayload] and
    [as RefreshTokenPayload] check nothing at run time, so one record
    serves both. *)
Module Claims.
Record t := mk {
  userId : string;
  email : option string;
  role : option string;
  tokenVersion : option Z;
  iat : option Z;
  exp : option Z;
  iss : option string;
  aud : option string }.

#[global] Instance eq_dec : EqDecision t.
Proof. solve_decision. Defined.
End Claims.

(** [Omit<TokenPayload, "iat" | "exp">] *)
Record AccessClaims := {
  ac_userId : string;
  ac_email : string;
  ac_role : string }.

(** [Omit<RefreshTokenPayload, "iat" | "exp">], as both call sites build it. *)
Record RefreshClaims := {
  rc_userId : string;
  rc_tokenVersion : Z }.

Definition accessObject (c : AccessClaims) : Claims.t :=
  Claims.mk (ac_userId c) (Some (ac_email c)) (Some (ac_role c))
            None None None None None.

Definition refreshObject (c : RefreshClaims) : Claims.t :=
  Claims.mk (rc_userId c) None None (Some (rc_tokenVersion c))
            None None None None.

(** ** Process environment read by [JWTUtils] *)

Record Env := {
  JWT_ACCESS_SECRET : option string;
  JWT_REFRESH_SECRET : option string;
  JWT_ACCESS_EXPIRY : option string;
  JWT_REFRESH_EXPIRY : option string }.

(** [process.env.X || fallback]: an unset or empty variable is falsy. *)
Definition orDefault (v : option string) (fallback : string) : string :=
  match v with
  | Some s => if decide (s = "") then fallback else s
  | None => fallback
  end.

(** ** [String.prototype.split] with a one-character separator *)

Fixpoint splitOn (sep : ascii) (s : string) : list string :=
  match s with
  | EmptyString => [EmptyString]
  | String c rest =>
      if Ascii.eqb c sep then EmptyString :: splitOn sep rest
      else match splitOn sep rest with
           | part :: parts => String c part :: parts
           | [] => [String c EmptyString]
           end
  end.

(** ** [parseInt(s)] with no radix argument

    Leading white space is skipped, one sign is read, a [0x]/[0X] prefix
    selects base 16, and the longest prefix of digits is converted;
    [None] stands for [NaN].  The value is the exact integer the digits
    denote: it is the number the code computes as long as it does not
    exceed [Number.MAX_SAFE_INTEGER], 2^53 - 1, beyond which the code
    rounds to the nearest double. *)

Definition isWhite (c : ascii) : bool :=
  let n := nat_of_ascii c in
  ((9 <=? n) && (n <=? 13) || (n =? 32) || (n =? 160))%nat.

Fixpoint trimStart (s : string) : string :=
  match s with
  | String c rest => if isWhite c then trimStart rest else s
  | EmptyString => EmptyString
  end.

Definition digitValue (c : ascii) : option Z :=
  let n := Z.of_nat (nat_of_ascii c) in
  if (48 <=? n) && (n <=? 57) then Some (n - 48)
  else if (97 <=? n) && (n <=? 122) then Some (n - 87)
  else if (65 <=? n) && (n <=? 90) then Some (n - 55)
  else None.

Fixpoint readDigits (radix : Z) (s : string) (acc : option Z) : option Z :=
  match s with
  | String c rest =>
      match digitValue c with
      | Some d =>
          if d <? radix
          then readDigits radix rest (Some (default 0 acc * radix + d))
          else acc
      | None => acc
      end
  | EmptyString => acc
  end.

Definition parseInt (s : string) : option Z :=
  let s1 := trimStart s in
  let '(sign, s2) :=
    match s1 with
    | String "-" r => (-1, r)
    | String "+" r => (1, r)
    | _ => (1, s1)
    end in
  let '(radix, s3) :=
    match s2 with
    | String "0" (String "x" r) => (16, r)
    | String "0" (String "X" r) => (16, r)
    | _ => (10, s2)
    end in
  (fun n => sign * n) <$> readDigits radix s3 None.

Fixpoint endsWith (s suffix : string) : bool :=
  if String.eqb s suffix then true
  else match s with
       | String _ rest => endsWith rest suffix
       | EmptyString => false
       end.

(** ** [PasswordUtils.validatePasswordStrength] ([password.ts]) *)

Definition codeOf (c : ascii) : Z := Z.of_nat (nat_of_ascii c).

Definition isLower (c : ascii) : bool := (97 <=? codeOf c) && (codeOf c <=? 122).
Definition isUpper (c : ascii) : bool := (65 <=? codeOf c) && (codeOf c <=? 90).
Definition isDigit (c : ascii) : bool := (48 <=? codeOf c) && (codeOf c <=? 57).

(** The class [[@$!%*?&]]. *)
Definition isSpecial (c : ascii) : bool :=
  existsb (Ascii.eqb c) (list_ascii_of_string "@$!%*?&").

(** [.] of a regular expression without the [s] flag: anything but a line
    terminator. *)
Definition isDot (c : ascii) : bool :=
  negb ((codeOf c =? 10) || (codeOf c =? 13)).

(** [/cls/.test(s)] for a one-character class. *)
Definition testClass (cls : ascii -> bool) (s : string) : bool :=
  existsb cls (list_ascii_of_string s).

(** [/(.)\1{2,}/.test(s)]: some character occurs three times in a row. *)
Fixpoint testRepeated (s : string) : bool :=
  match s with
  | String a rest =>
      match rest with
      | String b (String c _) => isDot a && Ascii.eqb a b && Ascii.eqb b c
      | _ => false
      end || testRepeated rest
  | EmptyString => false
  end.

Record StrengthReport := {
  isValid : bool;
  score : Z;
  feedback : list string }.

(** One [if (ok) score += 1; else feedback.push(msg);] statement. *)
Definition criterion (ok : bool) (msg : string) (acc : Z * list string)
  : Z * list string :=
  if ok then (fst acc + 1, snd acc) else (fst acc, (snd acc ++ [msg])%list).

Definition validatePasswordStrength (password : string) : StrengthReport :=
  let len := Z.of_nat (String.length password) in
  let acc := (0, []) in
  let acc := criterion (8 <=? len)
               "Password should be at least 8 characters long" acc in
  let acc := if 12 <=? len then (fst acc + 1, snd acc) else acc in
  let acc := criterion (testClass isLower password)
               "Password should contain lowercase letters" acc in
  let acc := criterion (testClass isUpper password)
               "Password should contain uppercase letters" acc in
  let acc := criterion (testClass isDigit password)
               "Password should contain numbers" acc in
  let acc := criterion (testClass isSpecial password)
               "Password should contain special characters" acc in
  let acc := criterion (negb (testRepeated password))
               "Password should not contain repeated characters" acc in
  {| isValid := 5 <=? fst acc; score := fst acc; feedback := snd acc |}.

(** ** [JWTUtils.extractTokenFromHeader] ([jwt.ts]) *)

Definition extractTokenFromHeader (authHeader : option string) : option string :=
  match authHeader with
  | None => None
  | Some h =>
      if decide (h = "") then None
      else
        let parts := splitOn " " h in
        if negb (List.length parts =? 2)%nat
           || negb (bool_decide (parts !! 0%nat = Some "Bearer"))
        then None
        else parts !! 1%nat
  end.

(** ** The world the services act on *)

Inductive Severity := Low | Medium | High.

Inductive MetaValue :=
| MetaNumber (n : Z)
| MetaDate (t : Z)
| MetaString (s : string).

(** One call of [logger.securityEvent(event, data)]. *)
Record SecurityEvent := {
  event : string;
  ev_userId : option string;
  ev_ip : option string;
  ev_userAgent : option string;
  severity : Severity;
  metadata : list (string * MetaValue) }.

(** The [users] collection.  [fault = Some msg] is a store whose every
    operation rejects with [Error(msg)] (the collaborator failing). *)
Record Db := {
  users : list User.t;
  fault : option string }.

(** [db] is the collection behind [UserService]; [tokenVersions] is the
    private [Map<string, number>] of the [AuthService] instance;
    [securityLog] collects the security events, oldest first. *)
Record World := {
  db : Db;
  tokenVersions : gmap string Z;
  securityLog : list SecurityEvent }.

(** The world with the collection's documents replaced, and with one
    more security event. *)
Definition withUsers (l : list User.t) (w : World) : World :=
  {| db := {| users := l; fault := fault (db w) |};
     tokenVersions := tokenVersions w;
     securityLog := securityLog w |}.

Definition logged (e : SecurityEvent) (w : World) : World :=
  {| db := db w;
     tokenVersions := tokenVersions w;
     securityLog := (securityLog w ++ [e])%list |}.

(** Computations over the world that may throw; what was written before
    a throw stays written. *)
Definition M (A : Type) : Type := World -> Outcome A * World.

Definition ret {A} (a : A) : M A := fun w => (Returned a, w).

Definition throw {A} (message : string) : M A := fun w => (Thrown message, w).

Definition bind {A B} (m : M A) (k : A -> M B) : M B :=
  fun w =>
    match m w with
    | (Returned a, w') => k a w'
    | (Thrown e, w') => (Thrown e, w')
    end.

(** [try { m } catch (error) { handler(error) }] *)
Definition tryCatch {A} (m : M A) (handler : string -> M A) : M A :=
  fun w =>
    match m w with
    | (Returned a, w') => (Returned a, w')
    | (Thrown e, w') => handler e w'
    end.

Notation "'await' x <- m 'in' k" := (bind m (fun x => k))
  (at level 10, x name, m at level 100, k at level 200).
Notation "'perform' m 'in' k" := (bind m (fun _ => k))
  (at level 10, m at level 100, k at level 200).

Definition securityEvent (e : SecurityEvent) : M unit :=
  fun w => (Returned tt, logged e w).

(** *** The collection operations the services use *)

Fixpoint updateFirst (q : User.t -> bool) (f : User.t -> User.t)
    (l : list User.t) : list User.t :=
  match l with
  | [] => []
  | u :: rest => if q u then f u :: rest else u :: updateFirst q f rest
  end.

(** The filters [{ id }] and [{ email }]. *)
Definition hasId (id : string) (u : User.t) : bool := String.eqb (User.id u) id.
Definition hasEmail (email : string) (u : User.t) : bool :=
  String.eqb (User.email u) email.

(** [collection.findOne(filter)] *)
Definition findOne (q : User.t -> bool) : M (option User.t) :=
  fun w =>
    match fault (db w) with
    | Some msg => (Thrown msg, w)
    | None => (Returned (List.find q (users (db w))), w)
    end.

(** [collection.findOneAndUpdate(filter, { $set }, { returnDocument: "after" })] *)
Definition findOneAndUpdate (q : User.t -> bool) (f : User.t -> User.t)
  : M (option User.t) :=
  fun w =>
    match fault (db w) with
    | Some msg => (Thrown msg, w)
    | None =>
        (Returned (f <$> List.find q (users (db w))),
         withUsers (updateFirst q f (users (db w))) w)
    end.

(** The keys of [Partial<User>] that the modelled callers pass to
    [updateUser].  [Some None] is a key present with value [undefined],
    which the driver stores as [null]. *)
Record UserPatch := {
  set_password : option string;
  set_loginAttempts : option Z;
  set_lockUntil : option (option Z);
  set_lastLoginAt : option (option Z) }.

(** [$set: { ...updateData, updatedAt: new Date() }] applied to a document. *)
Definition applySet (p : UserPatch) (now : Z) (u : User.t) : User.t :=
  User.mk (User.id u) (User.email u) (User.username u)
    (default (User.password u) (set_password p))
    (User.firstName u) (User.lastName u) (User.role u) (User.isActive u)
    (User.isEmailVerified u) (User.emailVerificationToken u)
    (User.passwordResetToken u) (User.passwordResetExpires u)
    (default (User.lastLoginAt u) (set_lastLoginAt p))
    (default (User.loginAttempts u) (set_loginAttempts p))
    (default (User.lockUntil u) (set_lockUntil p))
    (User.preferences u) (User.createdAt u) now.

(** ** The services, over the primitives they call

    [hs256 secret payload] is the HMAC-SHA256 tag [jsonwebtoken] computes
    for a payload under a secret (the header is the constant
    [{alg: HS256, typ: JWT}]); [bcrypt_hash] and [bcrypt_compare] are
    [bcrypt.hash] and [bcrypt.compare].  All three are arbitrary
    functions here.  [env] is [process.env]. *)

Section AuthCore.

Context {Sig : Type} `{!EqDecision Sig}.
Variable hs256 : string -> Claims.t -> Sig.
Variable bcrypt_hash : string -> Z -> string.
Variable bcrypt_compare : string -> string -> bool.
Variable env : Env.

(** A token string, decoded: either it does not parse as a JWS, or it
    carries a payload and a signature. *)
Inductive Token :=
| Malformed (raw : string)
| Jws (payload : Claims.t) (signature : Sig).

(** *** [jsonwebtoken] *)

Record SignOptions := {
  issuer : option string;
  audience : option string;
  expiresIn : option Z }.

(** [jwt.sign(payload, secret, options)] at instant [now]: [iat] is
    stamped in seconds, [exp] only when [expiresIn] is given, [iss] and
    [aud] from the options.  The payloads the callers build carry none of
    [iat], [iss], [aud], and the secrets are never empty, so the
    library's argument errors cannot arise. *)
Definition jwt_sign (payload : Claims.t) (secret : string)
    (o : SignOptions) (now : Z) : Token :=
  let timestamp :=
    match Claims.iat payload with
    | Some t => if t =? 0 then now / 1000 else t
    | None => now / 1000
    end in
  let p :=
    Claims.mk (Claims.userId payload) (Claims.email payload)
      (Claims.role payload) (Claims.tokenVersion payload)
      (Some timestamp)
      (match expiresIn o with
       | Some seconds => Some (timestamp + seconds)
       | None => Claims.exp payload
       end)
      (match issuer o with Some i => Some i | None => Claims.iss payload end)
      (match audience o with Some a => Some a | None => Claims.aud payload end)
  in
  Jws p (hs256 secret p).

(** [jwt.verify(token, secret, { issuer, audience })] at instant [now]:
    signature, then [exp] when the payload has one, then audience, then
    issuer. *)
Definition jwt_verify (token : Token) (secret : string)
    (issuer audience : string) (now : Z) : Outcome Claims.t :=
  match token with
  | Malformed _ => Thrown "jwt malformed"
  | Jws p s =>
      if negb (bool_decide (s = hs256 secret p))
      then Thrown "invalid signature"
      else if match Claims.exp p with
              | Some e => e <=? now / 1000
              | None => false
              end
      then Thrown "jwt expired"
      else if negb (bool_decide (Claims.aud p = Some audience))
      then Thrown ("jwt audience invalid. expected: " ++ audience)
      else if negb (bool_decide (Claims.iss p = Some issuer))
      then Thrown ("jwt issuer invalid. expected: " ++ issuer)
      else Returned p
  end.

(** *** [JWTUtils] ([jwt.ts]) *)

Definition ACCESS_TOKEN_SECRET : string :=
  orDefault (JWT_ACCESS_SECRET env) "your-super-secret-access-key".
Definition REFRESH_TOKEN_SECRET : string :=
  orDefault (JWT_REFRESH_SECRET env) "your-super-secret-refresh-key".
Definition ACCESS_TOKEN_EXPIRY : string :=
  orDefault (JWT_ACCESS_EXPIRY env) "15m".
Definition REFRESH_TOKEN_EXPIRY : string :=
  orDefault (JWT_REFRESH_EXPIRY env) "7d".

Definition generateAccessToken (payload : AccessClaims) (now : Z) : Token :=
  jwt_sign (accessObject payload) ACCESS_TOKEN_SECRET
    {| issuer := Some "quote-service";
       audience := Some "quote-service-users";
       expiresIn := None |} now.

Definition generateRefreshToken (payload : RefreshClaims) (now : Z) : Token :=
  jwt_sign (refreshObject payload) REFRESH_TOKEN_SECRET
    {| issuer := Some "quote-service";
       audience := Some "quote-service-users";
       expiresIn := None |} now.

Definition verifyAccessToken (token : Token) (now : Z) : Outcome Claims.t :=
  match jwt_verify token ACCESS_TOKEN_SECRET
          "quote-service" "quote-service-users" now with
  | Returned p => Returned p
  | Thrown _ => Thrown "Invalid or expired access token"
  end.

Definition verifyRefreshToken (token : Token) (now : Z) : Outcome Claims.t :=
  match jwt_verify token REFRESH_TOKEN_SECRET
          "quote-service" "quote-service-users" now with
  | Returned p => Returned p
  | Thrown _ => Thrown "Invalid or expired refresh token"
  end.

(** [None] is [NaN].  The products are exact, as the code's are up to
    [Number.MAX_SAFE_INTEGER]. *)
Definition getAccessTokenExpiryTime : option Z :=
  let expiry := ACCESS_TOKEN_EXPIRY in
  if endsWith expiry "m" then (fun n => n * 60) <$> parseInt expiry
  else if endsWith expiry "h" then (fun n => n * 60 * 60) <$> parseInt expiry
  else if endsWith expiry "d"
  then (fun n => n * 24 * 60 * 60) <$> parseInt expiry
  else parseInt expiry.

(** *** [UserService] ([user.service.ts]) *)

Definition getUserById (id : string) : M (option User.t) :=
  findOne (hasId id).

Definition getUserByEmail (email : string) : M (option User.t) :=
  findOne (hasEmail email).

Definition updateUser (id : string) (updateData : UserPatch) (now : Z)
  : M (option User.t) :=
  findOneAndUpdate (hasId id) (applySet updateData now).

Definition incrementLoginAttempts (id : string) (now : Z) : M unit :=
  let maxAttempts := 5 in
  let lockTime := 30 * 60 * 1000 in
  await user <- getUserById id in
  match user with
  | None => ret tt
  | Some user =>
      let attempts := User.loginAttempts user + 1 in
      if maxAttempts <=? attempts then
        let lockUntil := now + lockTime in
        perform securityEvent
          {| event := "account_locked";
             ev_userId := Some id; ev_ip := None; ev_userAgent := None;
             severity := High;
             metadata := [("attempts", MetaNumber attempts);
                          ("lockUntil", MetaDate lockUntil)] |} in
        perform updateUser id
          {| set_password := None; set_loginAttempts := Some attempts;
             set_lockUntil := Some (Some lockUntil);
             set_lastLoginAt := None |} now in
        ret tt
      else
        perform updateUser id
          {| set_password := None; set_loginAttempts := Some attempts;
             set_lockUntil := None; set_lastLoginAt := None |} now in
        ret tt
  end.

Definition resetLoginAttempts (id : string) (now : Z) : M unit :=
  perform updateUser id
    {| set_password := None; set_loginAttempts := Some 0;
       set_lockUntil := Some None; set_lastLoginAt := Some (Some now) |}
    now in
  ret tt.

Definition isAccountLocked (user : User.t) (now : Z) : M bool :=
  match User.lockUntil user with
  | None => ret false
  | Some lockUntil =>
      if now <? lockUntil then ret true
      else
        perform updateUser (User.id user)
          {| set_password := None; set_loginAttempts := Some 0;
             set_lockUntil := Some None; set_lastLoginAt := None |} now in
        ret false
  end.

Definition changePassword (id currentPassword newPassword : string)
    (now : Z) : M bool :=
  await user <- getUserById id in
  match user with
  | None => ret false
  | Some user =>
      if negb (bcrypt_compare currentPassword (User.password user))
      then ret false
      else
        let hashedPassword := bcrypt_hash newPassword 12 in
        perform updateUser id
          {| set_password := Some hashedPassword; set_loginAttempts := None;
             set_lockUntil := None; set_lastLoginAt := None |} now in
        ret true
  end.

(** *** [AuthService] ([auth.service.ts]) *)

Record LoginCredentials := {
  cred_email : string;
  cred_password : string }.

Record AuthResponse := {
  resp_user : UserResponse.t;
  resp_accessToken : Token;
  resp_refreshToken : Token;
  resp_expiresIn : option Z }.

(** The value [refreshToken] resolves to: [{ accessToken, expiresIn }]. *)
Record RefreshResponse := {
  rr_accessToken : Token;
  rr_expiresIn : option Z }.

(** [this.tokenVersions.get(userId) || 0] *)
Definition getTokenVersion (userId : string) : M Z :=
  fun w => (Returned (default 0 (tokenVersions w !! userId)), w).

Definition incrementTokenVersion (userId : string) : M unit :=
  await currentVersion <- getTokenVersion userId in
  fun w => (Returned tt,
            {| db := db w;
               tokenVersions := <[userId := currentVersion + 1]> (tokenVersions w);
               securityLog := securityLog w |}).

(** The [catch (error) { logger.error(...); throw error; }] around the
    body rethrows the same error and is not written out. *)
Definition login (credentials : LoginCredentials)
    (ip userAgent : option string) (now : Z) : M AuthResponse :=
  await user <- getUserByEmail (cred_email credentials) in
  match user with
  | None =>
      perform securityEvent
        {| event := "login_attempt_invalid_email";
           ev_userId := None; ev_ip := ip; ev_userAgent := userAgent;
           severity := Low;
           metadata := [("email", MetaString (cred_email credentials))] |} in
      throw "Invalid email or password"
  | Some user =>
      await isLocked <- isAccountLocked user now in
      if isLocked then
        perform securityEvent
          {| event := "login_attempt_locked_account";
             ev_userId := Some (User.id user);
             ev_ip := ip; ev_userAgent := userAgent;
             severity := Medium; metadata := [] |} in
        throw "Account is temporarily locked due to too many failed login attempts"
      else if negb (User.isActive user) then
        perform securityEvent
          {| event := "login_attempt_inactive_account";
             ev_userId := Some (User.id user);
             ev_ip := ip; ev_userAgent := userAgent;
             severity := Medium; metadata := [] |} in
        throw "Account is deactivated"
      else if negb (bcrypt_compare (cred_password credentials)
                                   (User.password user)) then
        perform incrementLoginAttempts (User.id user) now in
        perform securityEvent
          {| event := "login_attempt_invalid_password";
             ev_userId := Some (User.id user);
             ev_ip := ip; ev_userAgent := userAgent;
             severity := Medium;
             metadata := [("attempts",
                           MetaNumber (User.loginAttempts user + 1))] |} in
        throw "Invalid email or password"
      else
        perform resetLoginAttempts (User.id user) now in
        let tokenPayload :=
          {| ac_userId := User.id user; ac_email := User.email user;
             ac_role := roleName (User.role user) |} in
        await version <- getTokenVersion (User.id user) in
        let refreshTokenPayload :=
          {| rc_userId := User.id user; rc_tokenVersion := version |} in
        let accessToken := generateAccessToken tokenPayload now in
        let refreshToken := generateRefreshToken refreshTokenPayload now in
        ret {| resp_user := userResponse user;
               resp_accessToken := accessToken;
               resp_refreshToken := refreshToken;
               resp_expiresIn := getAccessTokenExpiryTime |}
  end.

(** A synchronous call that may throw, inside an [async] body. *)
Definition liftOutcome {A} (o : Outcome A) : M A := fun w => (o, w).

Definition refreshToken (refreshToken : Token) (now : Z) : M RefreshResponse :=
  tryCatch
    (await payload <- liftOutcome (verifyRefreshToken refreshToken now) in
     await currentVersion <- getTokenVersion (Claims.userId payload) in
     if negb (bool_decide (Claims.tokenVersion payload = Some currentVersion))
     then throw "Token version mismatch"
     else
       await user <- getUserById (Claims.userId payload) in
       match user with
       | None => throw "User not found or inactive"
       | Some user =>
           if negb (User.isActive user)
           then throw "User not found or inactive"
           else
             let tokenPayload :=
               {| ac_userId := User.id user; ac_email := User.email user;
                  ac_role := roleName (User.role user) |} in
             let accessToken := generateAccessToken tokenPayload now in
             ret {| rr_accessToken := accessToken;
                    rr_expiresIn := getAccessTokenExpiryTime |}
       end)
    (fun _ => throw "Invalid refresh token").

Definition logout (userId : string) : M unit :=
  incrementTokenVersion userId.

Definition validateAccessToken (token : Token) (now : Z)
  : M (option Claims.t) :=
  tryCatch
    (await payload <- liftOutcome (verifyAccessToken token now) in
     await user <- getUserById (Claims.userId payload) in
     match user with
     | None => ret None
     | Some user =>
         if negb (User.isActive user) then ret None
         else ret (Some payload)
     end)
    (fun _ => ret None).

End AuthCore.

(** ** Vocabulary of the statements *)

(** The identity [u] is a document of an operating store and is the one
    its e-mail address and its id retrieve (both keys carry a unique
    index). *)
Definition stored (w : World) (u : User.t) : Prop :=
  fault (db w) = None
  /\ List.find (hasEmail (User.email u)) (users (db w)) = Some u
  /\ List.find (hasId (User.id u)) (users (db w)) = Some u.

(** The world after [updateUser(u.id, p)] at [now] on a store holding [u]. *)
Definition updated (w : World) (u : User.t) (p : UserPatch) (now : Z) : World :=
  withUsers (updateFirst (hasId (User.id u)) (applySet p now) (users (db w))) w.

(** The document [u] with a new digest and update instant, every other
    field as it was. *)
Definition withPassword (digest : string) (now : Z) (u : User.t) : User.t :=
  User.mk (User.id u) (User.email u) (User.username u) digest
    (User.firstName u) (User.lastName u) (User.role u) (User.isActive u)
    (User.isEmailVerified u) (User.emailVerificationToken u)
    (User.passwordResetToken u) (User.passwordResetExpires u)
    (User.lastLoginAt u) (User.loginAttempts u) (User.lockUntil u)
    (User.preferences u) (User.createdAt u) now.

(** The [$set] documents of the lockout transitions. *)
Definition unlockPatch : UserPatch :=
  {| set_password := None; set_loginAttempts := Some 0;
     set_lockUntil := Some None; set_lastLoginAt := None |}.

Definition failurePatch (attempts now : Z) : UserPatch :=
  {| set_password := None; set_loginAttempts := Some attempts;
     set_lockUntil :=
       if 5 <=? attempts then Some (Some (now + 30 * 60 * 1000)) else None;
     set_lastLoginAt := None |}.

Definition successPatch (now : Z) : UserPatch :=
  {| set_password := None; set_loginAttempts := Some 0;
     set_lockUntil := Some None; set_lastLoginAt := Some (Some now) |}.

(** The stored document after one failed password check at [now]. *)
Definition afterFailure (now : Z) (u : User.t) : User.t :=
  applySet (failurePatch (User.loginAttempts u + 1) now) now u.

(** The security events of the lockout path. *)
Definition accountLockedEvent (id : string) (attempts until : Z) : SecurityEvent :=
  {| event := "account_locked";
     ev_userId := Some id; ev_ip := None; ev_userAgent := None;
     severity := High;
     metadata := [("attempts", MetaNumber attempts);
                  ("lockUntil", MetaDate until)] |}.

Definition invalidPasswordEvent (u : User.t) (ip userAgent : option string)
  : SecurityEvent :=
  {| event := "login_attempt_invalid_password";
     ev_userId := Some (User.id u); ev_ip := ip; ev_userAgent := userAgent;
     severity := Medium;
     metadata := [("attempts", MetaNumber (User.loginAttempts u + 1))] |}.

Definition invalidEmailEvent (email : string) (ip userAgent : option string)
  : SecurityEvent :=
  {| event := "login_attempt_invalid_email";
     ev_userId := None; ev_ip := ip; ev_userAgent := userAgent;
     severity := Low;
     metadata := [("email", MetaString email)] |}.

Definition lockedAccountEvent (u : User.t) (ip userAgent : option string)
  : SecurityEvent :=
  {| event := "login_attempt_locked_account";
     ev_userId := Some (User.id u); ev_ip := ip; ev_userAgent := userAgent;
     severity := Medium; metadata := [] |}.

Definition inactiveAccountEvent (u : User.t) (ip userAgent : option string)
  : SecurityEvent :=
  {| event := "login_attempt_inactive_account";
     ev_userId := Some (User.id u); ev_ip := ip; ev_userAgent := userAgent;
     severity := Medium; metadata := [] |}.

(** The world after [incrementLoginAttempts(u.id)] at [now] on a store
    holding [u]: the lock event, when the threshold is reached, precedes
    the write. *)
Definition failureWorld (w : World) (u : User.t) (now : Z) : World :=
  let attempts := User.loginAttempts u + 1 in
  updated
    (if 5 <=? attempts
     then logged (accountLockedEvent (User.id u) attempts (now + 30 * 60 * 1000)) w
     else w)
    u (failurePatch attempts now) now.

(** No lock is in force at [now]: none is set, or the one set is not
    after [now]. *)
Definition notLockedAt (now : Z) (u : User.t) : Prop :=
  match User.lockUntil u with
  | Some until => until <= now
  | None => True
  end.

(** The stored document and the world after the lock check of a login at
    [now], for an identity with no lock in force: an elapsed lock has
    been cleared and the counter reset. *)
Definition unlockedDoc (now : Z) (u : User.t) : User.t :=
  match User.lockUntil u with
  | Some _ => applySet unlockPatch now u
  | None => u
  end.

Definition unlockedWorld (w : World) (u : User.t) (now : Z) : World :=
  match User.lockUntil u with
  | Some _ => updated w u unlockPatch now
  | None => w
  end.

Definition noSpace (s : string) : Prop := ~ In " "%char (list_ascii_of_string s).

(** [parts.join(sep)] *)
Fixpoint joinWith (sep : ascii) (parts : list string) : string :=
  match parts with
  | [] => ""
  | [p] => p
  | p :: rest => p ++ String sep (joinWith sep rest)
  end.

(** What [generateAccessToken] signs: the given claims, [iat] in
    seconds, issuer and audience, and no [exp]. *)
Definition stampedAccess (c : AccessClaims) (t : Z) : Claims.t :=
  Claims.mk (ac_userId c) (Some (ac_email c)) (Some (ac_role c)) None
    (Some (t / 1000)) None (Some "quote-service") (Some "quote-service-users").

Definition stampedRefresh (c : RefreshClaims) (t : Z) : Claims.t :=
  Claims.mk (rc_userId c) None None (Some (rc_tokenVersion c))
    (Some (t / 1000)) None (Some "quote-service") (Some "quote-service-users").

Definition lockTime : Z := 30 * 60 * 1000.

Definition invalidCredentials : string := "Invalid email or password".
Definition accountLocked : string :=
  "Account is temporarily locked due to too many failed login attempts".
Definition accountInactive : string := "Account is deactivated".
Definition invalidRefreshToken : string := "Invalid refresh token".

(** ** A concrete instance of the primitives, for closed examples

    The tag of the ideal MAC is the pair of key and payload, so two tags
    agree only when both do; the toy digest is a tagged copy of the
    password. *)

Definition ideal_hs256 (secret : string) (p : Claims.t) : string * Claims.t :=
  (secret, p).

Definition toy_hash (password : string) (rounds : Z) : string :=
  "$2b$" ++ password.

Definition toy_compare (password digest : string) : bool :=
  String.eqb digest (toy_hash password 12).

Definition env_default : Env :=
  {| JWT_ACCESS_SECRET := None; JWT_REFRESH_SECRET := None;
     JWT_ACCESS_EXPIRY := None; JWT_REFRESH_EXPIRY := None |}.

(** Both secrets configured to the same value. *)
Definition env_shared : Env :=
  {| JWT_ACCESS_SECRET := Some "one-secret-for-both";
     JWT_REFRESH_SECRET := Some "one-secret-for-both";
     JWT_ACCESS_EXPIRY := None; JWT_REFRESH_EXPIRY := None |}.

Definition somePreferences : Preferences :=
  {| theme := Light; emailNotifications := true; quotesPerPage := 10 |}.

Definition sampleUser (id email username : string) (active : bool)
    (attempts : Z) (lock : option Z) : User.t :=
  User.mk id email username (toy_hash "Correct#Horse1" 12) "Sample" "User"
    RoleUser active false None None None None attempts lock
    somePreferences 0 0.

Definition alice : User.t := sampleUser "u-alice" "alice@x.com" "alice" true 0 None.
Definition bob : User.t := sampleUser "u-bob" "bob@x.com" "bob" false 0 None.
Definition carol : User.t :=
  sampleUser "u-carol" "carol@x.com" "carol" true 5 (Some 1800000).

Definition sampleWorld : World :=
  {| db := {| users := [alice; bob; carol]; fault := None |};
     tokenVersions := ∅;
     securityLog := [] |}.

Definition aliceClaims : AccessClaims :=
  {| ac_userId := "u-alice"; ac_email := "alice@x.com"; ac_role := "user" |}.

(** * Further operations of the same classes *)

(** ** [UserService.updateProfile] and [UserService.createUser] *)

(** [z.infer<typeof CreateUserSchema>] *)
Record CreateUser := {
  cu_email : string;
  cu_username : string;
  cu_password : string;
  cu_firstName : string;
  cu_lastName : string }.

(** [z.infer<typeof UpdateProfileSchema>]: every key optional. *)
Record PreferencesPatch := {
  pp_theme : option Theme;
  pp_emailNotifications : option bool;
  pp_quotesPerPage : option Z }.

Record UpdateProfileRequest := {
  up_firstName : option string;
  up_lastName : option string;
  up_preferences : option PreferencesPatch }.

(** [{ ...user.preferences, ...profileData.preferences }] *)
Definition mergePreferences (p : Preferences) (q : PreferencesPatch)
  : Preferences :=
  {| theme := default (theme p) (pp_theme q);
     emailNotifications := default (emailNotifications p) (pp_emailNotifications q);
     quotesPerPage := default (quotesPerPage p) (pp_quotesPerPage q) |}.

(** [if (s) ...] on an optional string: absent and empty are falsy. *)
Definition truthy (s : option string) : option string :=
  match s with
  | Some v => if decide (v = "") then None else Some v
  | None => None
  end.

(** The keys [updateProfile] passes to [updateUser]. *)
Record ProfilePatch := {
  set_firstName : option string;
  set_lastName : option string;
  set_preferences : option Preferences }.

(** [$set: { ...updateDoc, updatedAt: new Date() }] for those keys. *)
Definition applyProfileSet (p : ProfilePatch) (now : Z) (u : User.t) : User.t :=
  User.mk (User.id u) (User.email u) (User.username u) (User.password u)
    (default (User.firstName u) (set_firstName p))
    (default (User.lastName u) (set_lastName p))
    (User.role u) (User.isActive u)
    (User.isEmailVerified u) (User.emailVerificationToken u)
    (User.passwordResetToken u) (User.passwordResetExpires u)
    (User.lastLoginAt u) (User.loginAttempts u) (User.lockUntil u)
    (default (User.preferences u) (set_preferences p))
    (User.createdAt u) now.

Definition updateProfile (id : string) (profileData : UpdateProfileRequest)
    (now : Z) : M (option User.t) :=
  let firstName := truthy (up_firstName profileData) in
  let lastName := truthy (up_lastName profileData) in
  await preferences <-
    match up_preferences profileData with
    | None => ret None
    | Some requested =>
        await user <- getUserById id in
        ret (match user with
             | Some user => Some (mergePreferences (User.preferences user) requested)
             | None => None
             end)
    end in
  findOneAndUpdate (hasId id)
    (applyProfileSet
       {| set_firstName := firstName; set_lastName := lastName;
          set_preferences := preferences |} now).

Definition getUserByUsername (username : string) : M (option User.t) :=
  findOne (fun u => String.eqb (User.username u) username).

(** The filter [{ $or: [{ email }, { username }] }]. *)
Definition hasEmailOrUsername (email username : string) (u : User.t) : bool :=
  String.eqb (User.email u) email || String.eqb (User.username u) username.

(** The documents a unique index on [id], [email] or [username] refuses
    next to [u]. *)
Definition clashes (u v : User.t) : bool :=
  String.eqb (User.id v) (User.id u)
  || String.eqb (User.email v) (User.email u)
  || String.eqb (User.username v) (User.username u).

Definition lengthBetween (lo hi : Z) (s : string) : bool :=
  (lo <=? Z.of_nat (String.length s)) && (Z.of_nat (String.length s) <=? hi).

Section UserCreation.

Context {Sig : Type} `{!EqDecision Sig}.
Variable hs256 : string -> Claims.t -> Sig.
Variable bcrypt_hash : string -> Z -> string.
Variable env : Env.

(** [isEmail] is zod's [.email()] test; [zodMessage] and
    [duplicateKeyMessage] are the texts of the [ZodError] and of the
    driver's duplicate-key error for a document. *)
Variable isEmail : string -> bool.
Variable zodMessage : User.t -> string.
Variable duplicateKeyMessage : User.t -> string.

(** The constraints of [UserSchema] that the types do not already give. *)
Definition satisfiesUserSchema (u : User.t) : bool :=
  isEmail (User.email u)
  && lengthBetween 3 30 (User.username u)
  && (8 <=? Z.of_nat (String.length (User.password u)))
  && lengthBetween 1 50 (User.firstName u)
  && lengthBetween 1 50 (User.lastName u)
  && (5 <=? quotesPerPage (User.preferences u))
  && (quotesPerPage (User.preferences u) <=? 50).

(** [UserSchema.parse(user)] on a value of type [User]. *)
Definition UserSchema_parse (u : User.t) : Outcome User.t :=
  if satisfiesUserSchema u then Returned u else Thrown (zodMessage u).

(** [collection.insertOne(doc)] under the three unique indexes. *)
Definition insertOne (u : User.t) : M unit :=
  fun w =>
    match fault (db w) with
    | Some msg => (Thrown msg, w)
    | None =>
        if existsb (clashes u) (users (db w))
        then (Thrown (duplicateKeyMessage u), w)
        else (Returned tt, withUsers (users (db w) ++ [u])%list w)
    end.

(** [uuid] is the value [uuidv4()] draws and [verificationToken] the one
    [generateEmailVerificationToken()] draws.  The rethrowing [catch] is
    not written out. *)
Definition createUser (userData : CreateUser) (uuid verificationToken : string)
    (now : Z) : M User.t :=
  await existingUser <-
    findOne (hasEmailOrUsername (cu_email userData) (cu_username userData)) in
  perform
    match existingUser with
    | Some existingUser =>
        if String.eqb (User.email existingUser) (cu_email userData)
        then throw "User with this email already exists"
        else if String.eqb (User.username existingUser) (cu_username userData)
        then throw "User with this username already exists"
        else ret tt
    | None => ret tt
    end in
  let hashedPassword := bcrypt_hash (cu_password userData) 12 in
  let user :=
    User.mk uuid (cu_email userData) (cu_username userData) hashedPassword
      (cu_firstName userData) (cu_lastName userData) RoleUser true false
      (Some verificationToken) None None None 0 None
      {| theme := Light; emailNotifications := true; quotesPerPage := 10 |}
      now now in
  await validatedUser <- liftOutcome (UserSchema_parse user) in
  perform insertOne validatedUser in
  ret validatedUser.

(** [AuthService.register]; the rethrowing [catch] is not written out. *)
Definition register (userData : CreateUser) (uuid verificationToken : string)
    (now : Z) : M AuthResponse :=
  await user <- createUser userData uuid verificationToken now in
  let tokenPayload :=
    {| ac_userId := User.id user; ac_email := User.email user;
       ac_role := roleName (User.role user) |} in
  await version <- getTokenVersion (User.id user) in
  let refreshTokenPayload :=
    {| rc_userId := User.id user; rc_tokenVersion := version |} in
  let accessToken := generateAccessToken hs256 env tokenPayload now in
  let refreshToken := generateRefreshToken hs256 env refreshTokenPayload now in
  ret {| resp_user := userResponse user;
         resp_accessToken := accessToken;
         resp_refreshToken := refreshToken;
         resp_expiresIn := getAccessTokenExpiryTime env |}.

End UserCreation.

(** ** The [authenticate] decorator ([auth.plugin.ts]) *)

(** [request.user] *)
Record RequestUser := {
  ru_userId : string;
  ru_email : option string;
  ru_role : option string }.

(** What the decorator reads of a request, and the [user] it sets. *)
Record Request := {
  req_id : string;
  req_ip : string;
  req_url : string;
  req_method : string;
  req_authorization : option string;
  req_userAgent : option string;
  req_user : option RequestUser }.

(** [reply.code(statusCode).send({ success: false, error, code })] *)
Record Reply := {
  statusCode : Z;
  rp_error : string;
  rp_code : string }.

(** A pre-handler either answers the request or lets it continue. *)
Inductive PreHandled :=
| Replied (reply : Reply)
| Continued (request : Request).

Definition attachUser (request : Request) (user : RequestUser) : Request :=
  {| req_id := req_id request; req_ip := req_ip request;
     req_url := req_url request; req_method := req_method request;
     req_authorization := req_authorization request;
     req_userAgent := req_userAgent request;
     req_user := Some user |}.

Definition transportEvent (name : string) (sev : Severity) (request : Request)
  : SecurityEvent :=
  {| event := name;
     ev_userId := None; ev_ip := Some (req_ip request);
     ev_userAgent := req_userAgent request;
     severity := sev;
     metadata := [("endpoint", MetaString (req_url request));
                  ("method", MetaString (req_method request))] |}.

Section Transport.

Context {Sig : Type} `{!EqDecision Sig}.
Variable hs256 : string -> Claims.t -> Sig.
Variable env : Env.

(** The decoding of a compact JWS string into header, payload and
    signature, done inside [jwt.verify]. *)
Variable decodeJws : string -> @Token Sig.

Definition authenticate (request : Request) (now : Z) : M PreHandled :=
  tryCatch
    (let authHeader := req_authorization request in
     let token := extractTokenFromHeader authHeader in
     match truthy token with
     | None =>
         perform securityEvent (transportEvent "missing_auth_token" Low request) in
         ret (Replied {| statusCode := 401;
                         rp_error := "Authentication required";
                         rp_code := "AUTH_REQUIRED" |})
     | Some token =>
         await payload <- validateAccessToken hs256 env (decodeJws token) now in
         match payload with
         | None =>
             perform securityEvent
               (transportEvent "invalid_auth_token" Medium request) in
             ret (Replied {| statusCode := 401;
                             rp_error := "Invalid or expired token";
                             rp_code := "INVALID_TOKEN" |})
         | Some payload =>
             ret (Continued
                    (attachUser request
                       {| ru_userId := Claims.userId payload;
                          ru_email := Claims.email payload;
                          ru_role := Claims.role payload |}))
         end
     end)
    (fun _ =>
       ret (Replied {| statusCode := 401;
                       rp_error := "Authentication failed";
                       rp_code := "AUTH_FAILED" |})).

End Transport.

(** ** Vocabulary of the further statements *)

(** [id], [email] and [username] each occur once in the collection. *)
Definition uniqueKeys (l : list User.t) : Prop :=
  NoDup (map User.id l) /\ NoDup (map User.email l)
  /\ NoDup (map User.username l).

(** A decimal numeral, most significant digit first. *)
Definition digitChar (d : Z) : ascii := ascii_of_nat (Z.to_nat (48 + d)).

Definition numeral (ds : list Z) : string :=
  string_of_list_ascii (map digitChar ds).

Definition numeralValue (ds : list Z) : Z :=
  fold_left (fun acc d => acc * 10 + d) ds 0.

Definition isDecimalDigit (d : Z) : Prop := 0 <= d <= 9.

(** [Number.MAX_SAFE_INTEGER]: up to it every integer is a double, and
    integer arithmetic on doubles is exact. *)
Definition MAX_SAFE_INTEGER : Z := 2 ^ 53 - 1.

Definition withAccessExpiry (expiry : string) : Env :=
  {| JWT_ACCESS_SECRET := None; JWT_REFRESH_SECRET := None;
     JWT_ACCESS_EXPIRY := Some expiry; JWT_REFRESH_EXPIRY := None |}.

(** Wrong-password logins of one identity at the instants [ts], in turn;
    the world after the last one. *)
Definition afterFailures (ts : list Z) (u : User.t) : User.t :=
  fold_left (fun v t => afterFailure t v) ts u.

(** A registration request the sample collection accepts. *)
Definition daveData : CreateUser :=
  {| cu_email := "dave@x.com"; cu_username := "dave";
     cu_password := "Correct#Horse1"; cu_firstName := "Dave";
     cu_lastName := "Doe" |}.

Definition toy_isEmail (s : string) : bool :=
  existsb (Ascii.eqb "@"%char) (list_ascii_of_string s).

Definition toy_zodMessage (u : User.t) : string := "ZodError".

Definition toy_duplicateKeyMessage (u : User.t) : string :=
  "E11000 duplicate key error".

(** The toy decoding reads a token string as an access token of Alice
    issued at 0 when it is the word [alice], and as malformed otherwise. *)
Definition toy_decodeJws (s : string) : @Token (string * Claims.t) :=
  if String.eqb s "alice"
  then generateAccessToken ideal_hs256 env_default aliceClaims 0
  else Malformed s.

Definition sampleRequest (authorization : option string) : Request :=
  {| req_id := "req-1"; req_ip := "10.0.0.1"; req_url := "/auth/profile";
     req_method := "GET"; req_authorization := authorization;
     req_userAgent := None; req_user := None |}.

(** The document [createUser] builds from a request, the drawn id and
    verification token, the digest and the instant. *)
Definition newUser (userData : CreateUser) (uuid verificationToken digest : string)
    (now : Z) : User.t :=
  User.mk uuid (cu_email userData) (cu_username userData) digest
    (cu_firstName userData) (cu_lastName userData) RoleUser true false
    (Some verificationToken) None None None 0 None
    {| theme := Light; emailNotifications := true; quotesPerPage := 10 |}
    now now.

Definition emailTaken : string := "User with this email already exists".
Definition usernameTaken : string := "User with this username already exists".


Definition erin : User.t := sampleUser "u-erin" "erin@x.com" "erin" true 4 None.

Definition erinWorld : World :=
  {| db := {| users := [alice; erin]; fault := None |};
     tokenVersions := ∅;
     securityLog := [] |}.

Definition renameRequest : UpdateProfileRequest :=
  {| up_firstName := Some "Alicia"; up_lastName := Some "";
     up_preferences :=
       Some {| pp_theme := Some Dark; pp_emailNotifications := None;
               pp_quotesPerPage := None |} |}.

Definition aliceLogin (password : string) : LoginCredentials :=
  {| cred_email := "alice@x.com"; cred_password := password |}.

(** * Properties *)

(** ** Splitting a header value *)

Lemma splitOn_nonempty (sep : ascii) (s : string) : splitOn sep s <> [].
Proof.
  destruct s as [|c rest]; simpl; [discriminate|].
  destruct (Ascii.eqb c sep); [discriminate|].
  destruct (splitOn sep rest); discriminate.
Qed.

(** Joining the parts with the separator gives the string back. *)
Lemma splitOn_join (sep : ascii) (s : string) :
  joinWith sep (splitOn sep s) = s.
Proof.
  induction s as [|c rest IH]; simpl; [reflexivity|].
  destruct (Ascii.eqb_spec c sep) as [->|Hne].
  - pose proof (splitOn_nonempty sep rest) as Hn.
    simpl. destruct (splitOn sep rest) as [|p ps]; [congruence|].
    simpl in *. now rewrite IH.
  - destruct (splitOn sep rest) as [|p ps] eqn:E.
    + now destruct (splitOn_nonempty sep rest).
    + simpl in *. destruct ps; simpl in *; now rewrite <- IH.
Qed.

(** No part contains the separator. *)
Lemma splitOn_no_sep (sep : ascii) (s : string) :
  Forall (fun p => ~ In sep (list_ascii_of_string p)) (splitOn sep s).
Proof.
  induction s as [|c rest IH]; simpl.
  - constructor; [simpl; tauto | constructor].
  - destruct (Ascii.eqb_spec c sep) as [->|Hne].
    + constructor; [simpl; tauto | exact IH].
    + destruct (splitOn sep rest) as [|p ps].
      * constructor; [simpl; intuition congruence | constructor].
      * inversion IH; subst. constructor; [|assumption].
        simpl. intuition congruence.
Qed.

(** A part without separator, followed by the separator, splits off. *)
Lemma splitOn_part (sep : ascii) (p rest : string) :
  ~ In sep (list_ascii_of_string p) ->
  splitOn sep (p ++ String sep rest) = p :: splitOn sep rest.
Proof.
  induction p as [|c p IH]; simpl; intros Hp.
  - now rewrite Ascii.eqb_refl.
  - destruct (Ascii.eqb_spec c sep) as [->|Hne]; [tauto|].
    rewrite IH by tauto. reflexivity.
Qed.

Lemma splitOn_last (sep : ascii) (p : string) :
  ~ In sep (list_ascii_of_string p) -> splitOn sep p = [p].
Proof.
  induction p as [|c p IH]; simpl; intros Hp; [reflexivity|].
  destruct (Ascii.eqb_spec c sep) as [->|Hne]; [tauto|].
  rewrite IH by tauto. reflexivity.
Qed.

(** A string splits into exactly two parts [a], [b] iff it is [a], one
    space, [b], with no further space. *)
Lemma splitOn_two (s a b : string) :
  splitOn " " s = [a; b] <-> s = a ++ String " " b /\ noSpace a /\ noSpace b.
Proof.
  split.
  - intros E. pose proof (splitOn_join " " s) as J.
    pose proof (splitOn_no_sep " " s) as F. rewrite E in J, F.
    simpl in J. inversion F as [|? ? Ha F' ]. inversion F' as [|? ? Hb _].
    unfold noSpace. auto.
  - intros (-> & Ha & Hb). rewrite splitOn_part by exact Ha.
    now rewrite splitOn_last by exact Hb.
Qed.

Lemma noSpace_Bearer : noSpace "Bearer".
Proof. unfold noSpace. simpl. intuition discriminate. Qed.

(** [extractTokenFromHeader] in terms of the parts of the header. *)
Lemma extractTokenFromHeader_parts (h : string) :
  extractTokenFromHeader (Some h) =
  match splitOn " " h with
  | [scheme; token] => if decide (scheme = "Bearer") then Some token else None
  | _ => None
  end.
Proof.
  unfold extractTokenFromHeader.
  destruct (decide (h = "")) as [->|Hne]; [reflexivity|].
  destruct (splitOn " " h) as [|a [|b [|c l]]]; simpl; try reflexivity.
  destruct (decide (a = "Bearer")) as [->|Ha].
  - rewrite bool_decide_eq_true_2; reflexivity.
  - rewrite bool_decide_eq_false_2; [reflexivity | congruence].
Qed.

(** C8. [extractTokenFromHeader] is a total function to [option string]
    (it never raises).  It returns a token [t] exactly when the header is
    present and splits on single spaces into the two parts ["Bearer"] and
    [t], that is, when the header is the literal ["Bearer "] followed by
    a [t] without a space; an absent header, and every other shape, gives
    none. *)
Theorem C8_extractTokenFromHeader_total_and_exact :
  extractTokenFromHeader None = None
  /\ (forall h : string,
        extractTokenFromHeader (Some h) =
        match splitOn " " h with
        | [scheme; token] =>
            if decide (scheme = "Bearer") then Some token else None
        | _ => None
        end)
  /\ (forall (h : option string) (t : string),
        extractTokenFromHeader h = Some t
        <-> h = Some ("Bearer " ++ t) /\ noSpace t).
Proof.
  split; [reflexivity|]. split; [exact extractTokenFromHeader_parts|].
  intros [h|] t; [|split; [discriminate | intros [? _]; discriminate]].
  rewrite extractTokenFromHeader_parts. split.
  - destruct (splitOn " " h) as [|a [|b [|c l]]] eqn:E; try discriminate.
    destruct (decide (a = "Bearer")) as [->|]; [|discriminate].
    intros [= ->]. apply splitOn_two in E as (-> & _ & Hb). auto.
  - intros ([= ->] & Ht).
    assert (splitOn " " ("Bearer " ++ t) = ["Bearer"; t]) as ->.
    { apply splitOn_two. split; [reflexivity|]. split; [apply noSpace_Bearer | exact Ht]. }
    reflexivity.
Qed.

(** Shapes that give none: wrong scheme, wrong casing, one part, three
    parts, the empty header; and a header that gives its token. *)
Example extractTokenFromHeader_shapes :
  extractTokenFromHeader (Some "Basic abc") = None
  /\ extractTokenFromHeader (Some "bearer abc") = None
  /\ extractTokenFromHeader (Some "Bearer") = None
  /\ extractTokenFromHeader (Some "Bearer abc def") = None
  /\ extractTokenFromHeader (Some "Bearer  abc") = None
  /\ extractTokenFromHeader (Some "") = None
  /\ extractTokenFromHeader (Some "Bearer abc.def.ghi") = Some "abc.def.ghi".
Proof. repeat split; reflexivity. Qed.

(** ** The advisory strength check *)

(** One scored criterion adds one to score plus number of messages. *)
Lemma criterion_balance (ok : bool) (msg : string) (acc : Z * list string) :
  fst (criterion ok msg acc) + Z.of_nat (List.length (snd (criterion ok msg acc)))
  = fst acc + Z.of_nat (List.length (snd acc)) + 1.
Proof.
  unfold criterion. destruct ok; cbn [fst snd]; [lia|].
  rewrite length_app. cbn [List.length]. lia.
Qed.

Lemma criterion_true (msg : string) (acc : Z * list string) :
  criterion true msg acc = (fst acc + 1, snd acc).
Proof. reflexivity. Qed.

Lemma criterion_false (msg : string) (acc : Z * list string) :
  criterion false msg acc = (fst acc, (snd acc ++ [msg])%list).
Proof. reflexivity. Qed.

(** One scored criterion adds its truth value to the score. *)
Lemma criterion_fst (ok : bool) (msg : string) (acc : Z * list string) :
  fst (criterion ok msg acc) = fst acc + Z.b2z ok.
Proof. unfold criterion. destruct ok; cbn [fst Z.b2z]; lia. Qed.

(** The score is the number of the seven criteria that hold. *)
Lemma validatePasswordStrength_score (password : string) :
  score (validatePasswordStrength password)
  = Z.b2z (8 <=? Z.of_nat (String.length password))
    + Z.b2z (12 <=? Z.of_nat (String.length password))
    + Z.b2z (testClass isLower password)
    + Z.b2z (testClass isUpper password)
    + Z.b2z (testClass isDigit password)
    + Z.b2z (testClass isSpecial password)
    + Z.b2z (negb (testRepeated password)).
Proof.
  unfold validatePasswordStrength. cbv zeta. cbn [score].
  set (a1 := criterion (8 <=? _) _ (0, [])).
  pose proof (criterion_fst (8 <=? Z.of_nat (String.length password))
                "Password should be at least 8 characters long" (0, [])) as H1.
  fold a1 in H1. cbn [fst] in H1. clearbody a1.
  set (a2 := if 12 <=? _ then _ else a1).
  assert (H2 : fst a2
               = fst a1 + Z.b2z (12 <=? Z.of_nat (String.length password))).
  { subst a2. destruct (12 <=? Z.of_nat (String.length password));
      cbn [fst Z.b2z]; lia. }
  clearbody a2.
  set (a3 := criterion _ _ a2).
  pose proof (criterion_fst (testClass isLower password)
                "Password should contain lowercase letters" a2) as H3.
  fold a3 in H3. clearbody a3.
  set (a4 := criterion _ _ a3).
  pose proof (criterion_fst (testClass isUpper password)
                "Password should contain uppercase letters" a3) as H4.
  fold a4 in H4. clearbody a4.
  set (a5 := criterion _ _ a4).
  pose proof (criterion_fst (testClass isDigit password)
                "Password should contain numbers" a4) as H5.
  fold a5 in H5. clearbody a5.
  set (a6 := criterion _ _ a5).
  pose proof (criterion_fst (testClass isSpecial password)
                "Password should contain special characters" a5) as H6.
  fold a6 in H6. clearbody a6.
  set (a7 := criterion _ _ a6).
  pose proof (criterion_fst (negb (testRepeated password))
                "Password should not contain repeated characters" a6) as H7.
  fold a7 in H7. clearbody a7.
  lia.
Qed.

(** Seven criteria are scored, one point each. *)
Lemma validatePasswordStrength_score_range (password : string) :
  0 <= score (validatePasswordStrength password) <= 7.
Proof.
  rewrite validatePasswordStrength_score.
  destruct (8 <=? Z.of_nat (String.length password)),
    (12 <=? Z.of_nat (String.length password)),
    (testClass isLower password), (testClass isUpper password),
    (testClass isDigit password), (testClass isSpecial password),
    (testRepeated password); cbn; lia.
Qed.

(** C10. For every password, [validatePasswordStrength] scores seven
    criteria, one point each (length at least 8, length at least 12,
    a lowercase letter, an uppercase letter, a digit, a special
    character, no character three times in a row), so the score lies
    between 0 and 7, and it sets [isValid] exactly when the score is at
    least 5.  Hence a password can be accepted while a character class
    is missing: every password of length at least 12 with a lowercase
    letter, an uppercase letter and a digit, no character three times in
    a row and no special character is reported valid, with score 6,
    while its feedback names the missing special characters;
    [Abcdefgh1234] is one. *)
Theorem C10_strength_check_accepts_missing_class :
  (forall password : string,
      isValid (validatePasswordStrength password)
        = (5 <=? score (validatePasswordStrength password))
      /\ score (validatePasswordStrength password)
         = Z.b2z (8 <=? Z.of_nat (String.length password))
           + Z.b2z (12 <=? Z.of_nat (String.length password))
           + Z.b2z (testClass isLower password)
           + Z.b2z (testClass isUpper password)
           + Z.b2z (testClass isDigit password)
           + Z.b2z (testClass isSpecial password)
           + Z.b2z (negb (testRepeated password))
      /\ 0 <= score (validatePasswordStrength password) <= 7)
  /\ (forall password : string,
        12 <= Z.of_nat (String.length password) ->
        testClass isLower password = true ->
        testClass isUpper password = true ->
        testClass isDigit password = true ->
        testClass isSpecial password = false ->
        testRepeated password = false ->
        isValid (validatePasswordStrength password) = true
        /\ score (validatePasswordStrength password) = 6
        /\ feedback (validatePasswordStrength password)
           = ["Password should contain special characters"])
  /\ validatePasswordStrength "Abcdefgh1234"
     = {| isValid := true; score := 6;
          feedback := ["Password should contain special characters"] |}.
Proof.
  split; [|split; [|reflexivity]].
  - intros password. split; [reflexivity|].
    split; [apply validatePasswordStrength_score
           | apply validatePasswordStrength_score_range].
  - intros password Hlen Hl Hu Hd Hs Hr.
    unfold validatePasswordStrength. cbv zeta. cbn [isValid score feedback].
    set (a2 := if 12 <=? _ then _ else _).
    assert (H2 : a2 = (2, [])).
    { subst a2. unfold criterion.
      replace (8 <=? Z.of_nat (String.length password)) with true
        by (symmetry; apply Z.leb_le; lia).
      replace (12 <=? Z.of_nat (String.length password)) with true
        by (symmetry; apply Z.leb_le; lia).
      reflexivity. }
    clearbody a2. subst a2.
    rewrite Hl, Hu, Hd, Hs, Hr. cbn [negb].
    rewrite !criterion_true, criterion_false.
    cbn [fst snd]. repeat split.
Qed.

(** The password [Abcdefgh1234]: valid with score 6, special characters
    reported missing. *)
Lemma C10_strength_check_witness :
  isValid (validatePasswordStrength "Abcdefgh1234") = true
  /\ score (validatePasswordStrength "Abcdefgh1234") = 6
  /\ feedback (validatePasswordStrength "Abcdefgh1234")
     = ["Password should contain special characters"].
Proof.
  apply (proj1 (proj2 C10_strength_check_accepts_missing_class)
           "Abcdefgh1234");
    first [reflexivity | (simpl; lia)].
Defined.

(** The rule [isValid = (score >= 5)] holds for every input. *)
Lemma validatePasswordStrength_threshold (password : string) :
  isValid (validatePasswordStrength password)
  = (5 <=? score (validatePasswordStrength password)).
Proof. reflexivity. Qed.

(** Other inputs: too short and one class only; everything satisfied. *)
Example validatePasswordStrength_runs :
  validatePasswordStrength "abc"
    = {| isValid := false; score := 2;
         feedback := ["Password should be at least 8 characters long";
                      "Password should contain uppercase letters";
                      "Password should contain numbers";
                      "Password should contain special characters"] |}
  /\ validatePasswordStrength "Abcdefgh123!"
    = {| isValid := true; score := 7; feedback := [] |}
  /\ validatePasswordStrength "aaaaaaaa"
    = {| isValid := false; score := 2;
         feedback := ["Password should contain uppercase letters";
                      "Password should contain numbers";
                      "Password should contain special characters";
                      "Password should not contain repeated characters"] |}.
Proof. repeat split; reflexivity. Qed.

(** ** The token codec *)

Section TokenProperties.

Context {Sig : Type} `{!EqDecision Sig}.
Variable hs256 : string -> Claims.t -> Sig.
Variable env : Env.

Lemma generateAccessToken_eq (c : AccessClaims) (t : Z) :
  generateAccessToken hs256 env c t
  = Jws (stampedAccess c t) (hs256 (ACCESS_TOKEN_SECRET env) (stampedAccess c t)).
Proof. reflexivity. Qed.

Lemma generateRefreshToken_eq (c : RefreshClaims) (t : Z) :
  generateRefreshToken hs256 env c t
  = Jws (stampedRefresh c t) (hs256 (REFRESH_TOKEN_SECRET env) (stampedRefresh c t)).
Proof. reflexivity. Qed.

(** A payload without [exp], with the service's issuer and audience,
    verifies under a secret iff its tag is the one that secret gives. *)
Lemma jwt_verify_no_exp (p : Claims.t) (s : Sig) (secret : string) (now : Z) :
  Claims.exp p = None ->
  Claims.iss p = Some "quote-service" ->
  Claims.aud p = Some "quote-service-users" ->
  jwt_verify hs256 (Jws p s) secret "quote-service" "quote-service-users" now
  = if bool_decide (s = hs256 secret p) then Returned p
    else Thrown "invalid signature".
Proof.
  intros He Hi Ha. unfold jwt_verify. rewrite He, Hi, Ha.
  destruct (bool_decide (s = hs256 secret p)); reflexivity.
Qed.

(** The access round trip succeeds at every later or earlier instant:
    the token carries no [exp]. *)
Lemma verifyAccessToken_generateAccessToken (c : AccessClaims) (t now : Z) :
  verifyAccessToken hs256 env (generateAccessToken hs256 env c t) now
  = Returned (stampedAccess c t).
Proof.
  rewrite generateAccessToken_eq. unfold verifyAccessToken.
  rewrite jwt_verify_no_exp by reflexivity.
  now rewrite bool_decide_eq_true_2.
Qed.

Lemma verifyRefreshToken_generateRefreshToken (c : RefreshClaims) (t now : Z) :
  verifyRefreshToken hs256 env (generateRefreshToken hs256 env c t) now
  = Returned (stampedRefresh c t).
Proof.
  rewrite generateRefreshToken_eq. unfold verifyRefreshToken.
  rewrite jwt_verify_no_exp by reflexivity.
  now rewrite bool_decide_eq_true_2.
Qed.

(** With one secret for both contexts each verification call accepts
    the other context's tokens: issuer and audience are the same
    strings in all four calls. *)
Lemma shared_secret_cross_acceptance
    (a : AccessClaims) (r : RefreshClaims) (t now : Z) :
  ACCESS_TOKEN_SECRET env = REFRESH_TOKEN_SECRET env ->
  verifyAccessToken hs256 env (generateRefreshToken hs256 env r t) now
    = Returned (stampedRefresh r t)
  /\ verifyRefreshToken hs256 env (generateAccessToken hs256 env a t) now
    = Returned (stampedAccess a t).
Proof.
  intros E. rewrite generateAccessToken_eq, generateRefreshToken_eq.
  unfold verifyAccessToken, verifyRefreshToken.
  rewrite !jwt_verify_no_exp by reflexivity. rewrite E.
  now rewrite !bool_decide_eq_true_2.
Qed.

(** C2, as the code has it. Let the MAC tell the two configured secrets
    apart whenever they differ.  For every claim set, a token produced by
    the refresh-context signing call fails the access-context
    verification call, and an access token fails the refresh-context
    verification call, provided the two secrets differ; when the two
    secrets are equal, each verification call accepts the other
    context's token and returns its payload.  The rejection rests on the
    secrets alone. *)
Theorem C2_cross_context_rejection_with_distinct_secrets
    (a : AccessClaims) (r : RefreshClaims) (t now : Z) :
  (forall p, hs256 (ACCESS_TOKEN_SECRET env) p
             = hs256 (REFRESH_TOKEN_SECRET env) p ->
             ACCESS_TOKEN_SECRET env = REFRESH_TOKEN_SECRET env) ->
  (ACCESS_TOKEN_SECRET env <> REFRESH_TOKEN_SECRET env ->
   verifyAccessToken hs256 env (generateRefreshToken hs256 env r t) now
     = Thrown "Invalid or expired access token"
   /\ verifyRefreshToken hs256 env (generateAccessToken hs256 env a t) now
     = Thrown "Invalid or expired refresh token")
  /\ (ACCESS_TOKEN_SECRET env = REFRESH_TOKEN_SECRET env ->
      verifyAccessToken hs256 env (generateRefreshToken hs256 env r t) now
        = Returned (stampedRefresh r t)
      /\ verifyRefreshToken hs256 env (generateAccessToken hs256 env a t) now
        = Returned (stampedAccess a t)).
Proof.
  intros Hsep. split; [|apply shared_secret_cross_acceptance].
  intros Hne. rewrite generateAccessToken_eq, generateRefreshToken_eq.
  unfold verifyAccessToken, verifyRefreshToken.
  rewrite !jwt_verify_no_exp by reflexivity.
  rewrite !bool_decide_eq_false_2; [auto | |]; intros E;
    first [apply Hsep in E | symmetry in E; apply Hsep in E]; contradiction.
Qed.

End TokenProperties.

(** C1, on the code. A token issued at instant 0 for the default
    configuration is still accepted 16 minutes later, and carries no
    [exp], although the configured access lifetime, which
    [getAccessTokenExpiryTime] reports to clients, is 900 seconds:
    neither signing call passes [expiresIn] to [jwt.sign]. *)
Theorem C1_access_token_accepted_after_lifetime :
  verifyAccessToken ideal_hs256 env_default
    (generateAccessToken ideal_hs256 env_default aliceClaims 0)
    (16 * 60 * 1000)
  = Returned
      {| Claims.userId := "u-alice"; Claims.email := Some "alice@x.com";
         Claims.role := Some "user"; Claims.tokenVersion := None;
         Claims.iat := Some 0; Claims.exp := None;
         Claims.iss := Some "quote-service";
         Claims.aud := Some "quote-service-users" |}
  /\ getAccessTokenExpiryTime env_default = Some 900.
Proof.
  split; [|reflexivity].
  now rewrite verifyAccessToken_generateAccessToken.
Qed.

(** C2 fails as stated. With the same secret configured for both
    contexts, the access verification call accepts a refresh token and
    the refresh verification call accepts an access token. *)
Lemma C2_shared_secret_counterexample :
  verifyAccessToken ideal_hs256 env_shared
    (generateRefreshToken ideal_hs256 env_shared
       {| rc_userId := "u-alice"; rc_tokenVersion := 0 |} 0) 0
  = Returned
      {| Claims.userId := "u-alice"; Claims.email := None;
         Claims.role := None; Claims.tokenVersion := Some 0;
         Claims.iat := Some 0; Claims.exp := None;
         Claims.iss := Some "quote-service";
         Claims.aud := Some "quote-service-users" |}
  /\ verifyRefreshToken ideal_hs256 env_shared
       (generateAccessToken ideal_hs256 env_shared aliceClaims 0) 0
     = Returned
         {| Claims.userId := "u-alice"; Claims.email := Some "alice@x.com";
            Claims.role := Some "user"; Claims.tokenVersion := None;
            Claims.iat := Some 0; Claims.exp := None;
            Claims.iss := Some "quote-service";
            Claims.aud := Some "quote-service-users" |}.
Proof.
  apply (shared_secret_cross_acceptance ideal_hs256 env_shared). reflexivity.
Qed.

(** The ideal MAC tells any two different secrets apart. *)
Lemma ideal_hs256_separates (k1 k2 : string) (p : Claims.t) :
  ideal_hs256 k1 p = ideal_hs256 k2 p -> k1 = k2.
Proof. unfold ideal_hs256. congruence. Qed.

(** With the default secrets, which differ, both cross-context
    verifications fail. *)
Lemma C2_cross_context_rejection_witness :
  verifyAccessToken ideal_hs256 env_default
    (generateRefreshToken ideal_hs256 env_default
       {| rc_userId := "u-alice"; rc_tokenVersion := 0 |} 0) 0
  = Thrown "Invalid or expired access token"
  /\ verifyRefreshToken ideal_hs256 env_default
       (generateAccessToken ideal_hs256 env_default aliceClaims 0) 0
     = Thrown "Invalid or expired refresh token".
Proof.
  apply (C2_cross_context_rejection_with_distinct_secrets
           ideal_hs256 env_default aliceClaims
           {| rc_userId := "u-alice"; rc_tokenVersion := 0 |} 0 0).
  - intros p. apply ideal_hs256_separates.
  - vm_compute. discriminate.
Defined.

(** ** The collection *)

Lemma hasId_applySet (id : string) (p : UserPatch) (now : Z) (u : User.t) :
  hasId id (applySet p now u) = hasId id u.
Proof. reflexivity. Qed.

Lemma hasEmail_applySet (e : string) (p : UserPatch) (now : Z) (u : User.t) :
  hasEmail e (applySet p now u) = hasEmail e u.
Proof. reflexivity. Qed.

(** The document a filter retrieves is the one updated, when it is also
    the first to match the update's filter. *)
Lemma find_updateFirst_both (qe qi : User.t -> bool) (f : User.t -> User.t)
    (l : list User.t) (u : User.t) :
  List.find qe l = Some u ->
  List.find qi l = Some u ->
  qe (f u) = true ->
  List.find qe (updateFirst qi f l) = Some (f u).
Proof.
  induction l as [|h r IH]; simpl; [discriminate|].
  intros He Hi Hq.
  destruct (qi h) eqn:Qi.
  - injection Hi as ->. simpl. now rewrite Hq.
  - destruct (qe h) eqn:Qe.
    + injection He as ->. apply find_some in Hi as [_ Hi]. congruence.
    + simpl. rewrite Qe. auto.
Qed.

(** Seen through a filter the update does not disturb, the updated
    collection returns the same document as before, or its update. *)
Lemma find_updateFirst_rel (q q' : User.t -> bool) (f : User.t -> User.t)
    (l : list User.t) :
  (forall u, q (f u) = q u) ->
  match List.find q l, List.find q (updateFirst q' f l) with
  | Some v, Some v' => v' = v \/ v' = f v
  | None, None => True
  | _, _ => False
  end.
Proof.
  intros Hq. induction l as [|h r IH]; simpl; [exact I|].
  destruct (q' h) eqn:Q'; simpl.
  - rewrite Hq. destruct (q h); [auto|].
    destruct (List.find q r); auto.
  - destruct (q h); [auto | exact IH].
Qed.

(** A filter that the update's filter excludes sees no change. *)
Lemma find_updateFirst_other (q q' : User.t -> bool) (f : User.t -> User.t)
    (l : list User.t) :
  (forall x, q' x = true -> q x = false) ->
  (forall x, q (f x) = q x) ->
  List.find q (updateFirst q' f l) = List.find q l.
Proof.
  intros Hex Hq. induction l as [|h r IH]; simpl; [reflexivity|].
  destruct (q' h) eqn:Q'; simpl.
  - now rewrite Hq, (Hex h Q').
  - now rewrite IH.
Qed.

(** [updateUser] on one identity leaves the document of every other id
    as it was. *)
Lemma find_other_updated (w : World) (u : User.t) (p : UserPatch) (now : Z)
    (i : string) :
  i <> User.id u ->
  List.find (hasId i) (users (db (updated w u p now)))
  = List.find (hasId i) (users (db w)).
Proof.
  intros Hne. unfold updated. simpl. apply find_updateFirst_other.
  - intros x Hx. unfold hasId in *. apply String.eqb_eq in Hx.
    apply String.eqb_neq. congruence.
  - intros x. reflexivity.
Qed.

Lemma stored_logged (e : SecurityEvent) (w : World) (u : User.t) :
  stored w u -> stored (logged e w) u.
Proof. exact (fun H => H). Qed.

Lemma stored_updated (w : World) (u : User.t) (p : UserPatch) (now : Z) :
  stored w u -> stored (updated w u p now) (applySet p now u).
Proof.
  intros (Hf & He & Hi). unfold stored, updated. simpl.
  split; [exact Hf|]. split.
  - apply find_updateFirst_both; try assumption.
    rewrite hasEmail_applySet. now apply find_some in He as [_ ?].
  - apply find_updateFirst_both; try assumption.
    rewrite hasId_applySet. now apply find_some in Hi as [_ ?].
Qed.

(** ** The services *)

Section ServiceProperties.

Context {Sig : Type} `{!EqDecision Sig}.
Variable hs256 : string -> Claims.t -> Sig.
Variable bcrypt_hash : string -> Z -> string.
Variable bcrypt_compare : string -> string -> bool.
Variable env : Env.

Lemma getUserById_stored (w : World) (u : User.t) :
  stored w u -> getUserById (User.id u) w = (Returned (Some u), w).
Proof.
  intros (Hf & _ & Hi). unfold getUserById, findOne. now rewrite Hf, Hi.
Qed.

Lemma getUserByEmail_stored (w : World) (u : User.t) :
  stored w u -> getUserByEmail (User.email u) w = (Returned (Some u), w).
Proof.
  intros (Hf & He & _). unfold getUserByEmail, findOne. now rewrite Hf, He.
Qed.

Lemma updateUser_stored (w : World) (u : User.t) (p : UserPatch) (now : Z) :
  stored w u ->
  updateUser (User.id u) p now w
  = (Returned (Some (applySet p now u)), updated w u p now).
Proof.
  intros (Hf & _ & Hi). unfold updateUser, findOneAndUpdate.
  now rewrite Hf, Hi.
Qed.

(** C7. For every token, [validateAccessToken] returns without raising
    and leaves the world as it was; it returns the token's claims
    exactly when [verifyAccessToken] succeeds, the store answers, and
    the identity named by the claims exists with [isActive = true]; in
    every other case (bad signature, expired or malformed token,
    missing or inactive identity, failing store) it returns none. *)
Theorem C7_validateAccessToken_is_a_total_gate
    (token : Token) (now : Z) (w : World) :
  exists r : option Claims.t,
    validateAccessToken hs256 env token now w = (Returned r, w)
    /\ forall p : Claims.t,
         r = Some p
         <-> verifyAccessToken hs256 env token now = Returned p
             /\ fault (db w) = None
             /\ exists u : User.t,
                  List.find (hasId (Claims.userId p)) (users (db w)) = Some u
                  /\ User.isActive u = true.
Proof.
  unfold validateAccessToken, tryCatch, bind, liftOutcome, getUserById,
    findOne, ret.
  destruct (verifyAccessToken hs256 env token now) as [p0|msg] eqn:V.
  - destruct (fault (db w)) as [m|] eqn:F.
    + exists None. split; [reflexivity|]. intros p. split; [discriminate|].
      intros (_ & ? & _). discriminate.
    + destruct (List.find (hasId (Claims.userId p0)) (users (db w)))
        as [u|] eqn:Fd.
      * destruct (User.isActive u) eqn:A; simpl.
        -- exists (Some p0). split; [reflexivity|]. intros p. split.
           ++ intros [= <-]. eauto.
           ++ intros ([= <-] & _). reflexivity.
        -- exists None. split; [reflexivity|]. intros p. split; [discriminate|].
           intros ([= <-] & _ & u' & Hu' & A'). congruence.
      * exists None. split; [reflexivity|]. intros p. split; [discriminate|].
        intros ([= <-] & _ & u' & Hu' & _). congruence.
  - exists None. split; [reflexivity|]. intros p. split; [discriminate|].
    intros [? _]. discriminate.
Qed.


(** *** Revocation *)

Lemma verifyRefreshToken_payload (p p' : Claims.t) (s : Sig) (now : Z) :
  verifyRefreshToken hs256 env (Jws p s) now = Returned p' -> p' = p.
Proof.
  unfold verifyRefreshToken, jwt_verify.
  repeat match goal with
         | |- context [if ?b then _ else _] => destruct b
         end; congruence.
Qed.

Lemma logout_run (userId : string) (w : World) :
  logout userId w
  = (Returned tt,
     {| db := db w;
        tokenVersions :=
          <[userId := default 0 (tokenVersions w !! userId) + 1]>
            (tokenVersions w);
        securityLog := securityLog w |}).
Proof. reflexivity. Qed.

(** Logout strictly increments the generation of that identity and of
    no other. *)
Lemma getTokenVersion_logout (userId other : string) (w : World) :
  fst (getTokenVersion other (snd (logout userId w)))
  = Returned (if decide (userId = other)
              then default 0 (tokenVersions w !! userId) + 1
              else default 0 (tokenVersions w !! other)).
Proof.
  rewrite logout_run. unfold getTokenVersion. simpl.
  rewrite lookup_insert. destruct (decide (userId = other)); reflexivity.
Qed.

(** A refresh token stamped with the current generation of a stored,
    active identity is exchanged for an access token; the world is not
    touched. *)
Lemma refreshToken_current_generation
    (w : World) (u : User.t) (t0 now : Z) :
  stored w u -> User.isActive u = true ->
  refreshToken hs256 env
    (generateRefreshToken hs256 env
       {| rc_userId := User.id u;
          rc_tokenVersion := default 0 (tokenVersions w !! User.id u) |} t0)
    now w
  = (Returned
       {| rr_accessToken :=
            generateAccessToken hs256 env
              {| ac_userId := User.id u; ac_email := User.email u;
                 ac_role := roleName (User.role u) |} now;
          rr_expiresIn := getAccessTokenExpiryTime env |},
     w).
Proof.
  intros Hs Ha.
  unfold refreshToken, tryCatch, bind, liftOutcome.
  rewrite verifyRefreshToken_generateRefreshToken.
  cbn [stampedRefresh Claims.userId Claims.tokenVersion
       rc_userId rc_tokenVersion].
  unfold getTokenVersion.
  rewrite bool_decide_eq_true_2 by reflexivity. cbn [negb].
  rewrite (getUserById_stored w u Hs). rewrite Ha. reflexivity.
Qed.

(** C3. Let [G] be the current generation of an identity.  After
    [logout] of that identity, [refreshToken] with any token whose
    payload names the identity and carries [tokenVersion = G] fails
    with the generic "Invalid refresh token".  A refresh token carrying
    [G + 1], for an identity that is stored and active, succeeds: the
    call returns a new access token and [expiresIn] only, and changes
    nothing in the world (no new refresh token, same generation). *)
Theorem C3_logout_revokes_generation
    (w : World) (userId : string) (G : Z) :
  default 0 (tokenVersions w !! userId) = G ->
  let w' := snd (logout userId w) in
  fst (logout userId w) = Returned tt
  /\ getTokenVersion userId w' = (Returned (G + 1), w')
  /\ (forall (p : Claims.t) (s : Sig) (now : Z),
        Claims.userId p = userId ->
        Claims.tokenVersion p = Some G ->
        refreshToken hs256 env (Jws p s) now w'
        = (Thrown invalidRefreshToken, w'))
  /\ (forall (t0 now : Z),
        refreshToken hs256 env
          (generateRefreshToken hs256 env
             {| rc_userId := userId; rc_tokenVersion := G |} t0) now w'
        = (Thrown invalidRefreshToken, w'))
  /\ (forall (u : User.t) (t1 now : Z),
        stored w u -> User.id u = userId -> User.isActive u = true ->
        refreshToken hs256 env
          (generateRefreshToken hs256 env
             {| rc_userId := userId; rc_tokenVersion := G + 1 |} t1) now w'
        = (Returned
             {| rr_accessToken :=
                  generateAccessToken hs256 env
                    {| ac_userId := User.id u; ac_email := User.email u;
                       ac_role := roleName (User.role u) |} now;
                rr_expiresIn := getAccessTokenExpiryTime env |},
           w')).
Proof.
  intros HG w'.
  assert (Hver : getTokenVersion userId w' = (Returned (G + 1), w')).
  { subst w'. rewrite logout_run. unfold getTokenVersion. simpl.
    rewrite lookup_insert_eq. simpl. now rewrite HG. }
  assert (Hold : forall (p : Claims.t) (s : Sig) (now : Z),
             Claims.userId p = userId ->
             Claims.tokenVersion p = Some G ->
             refreshToken hs256 env (Jws p s) now w'
             = (Thrown invalidRefreshToken, w')).
  { intros p s now Hu Hv.
    unfold refreshToken, tryCatch, bind, liftOutcome.
    destruct (verifyRefreshToken hs256 env (Jws p s) now) as [p'|m] eqn:V;
      [|reflexivity].
    apply verifyRefreshToken_payload in V as ->.
    rewrite Hu, Hver, Hv.
    rewrite bool_decide_eq_false_2 by (intros [= ?]; lia).
    reflexivity. }
  split; [reflexivity|]. split; [exact Hver|]. split; [exact Hold|]. split.
  - intros t0 now. rewrite generateRefreshToken_eq. now apply Hold.
  - intros u t1 now Hs Hid Ha. subst userId.
    assert (Hs' : stored w' u) by exact Hs.
    pose proof (refreshToken_current_generation w' u t1 now Hs' Ha) as E.
    replace (default 0 (tokenVersions w' !! User.id u)) with (G + 1) in E.
    + exact E.
    + unfold getTokenVersion in Hver. congruence.
Qed.

(** *** Changing the password *)

(** [refreshToken] reads the store only through [getUserById], and of
    the document only [id], [email], [role] and [isActive]. *)
Lemma refreshToken_frame (w w' : World) (token : Token) (now : Z) :
  tokenVersions w' = tokenVersions w ->
  fault (db w') = fault (db w) ->
  (forall id,
      match List.find (hasId id) (users (db w)),
            List.find (hasId id) (users (db w')) with
      | Some v, Some v' =>
          User.id v' = User.id v /\ User.email v' = User.email v
          /\ User.role v' = User.role v /\ User.isActive v' = User.isActive v
      | None, None => True
      | _, _ => False
      end) ->
  fst (refreshToken hs256 env token now w')
  = fst (refreshToken hs256 env token now w).
Proof.
  intros Htv Hf Hfind.
  unfold refreshToken, tryCatch, bind, liftOutcome, getTokenVersion,
    getUserById, findOne, throw, ret.
  destruct (verifyRefreshToken hs256 env token now) as [p|m]; [|reflexivity].
  cbv beta iota. rewrite Htv.
  destruct (negb (bool_decide
              (Claims.tokenVersion p
               = Some (default 0 (tokenVersions w !! Claims.userId p)))));
    [reflexivity|].
  cbv beta. rewrite Hf.
  destruct (fault (db w)); [reflexivity|].
  specialize (Hfind (Claims.userId p)).
  destruct (List.find (hasId (Claims.userId p)) (users (db w))) as [v|],
           (List.find (hasId (Claims.userId p)) (users (db w'))) as [v'|];
    try contradiction; [|reflexivity].
  destruct Hfind as (-> & -> & -> & ->).
  destruct (User.isActive v); reflexivity.
Qed.

(** C9. A successful [changePassword] rewrites, in the first document
    with that id, the digest and the update instant, and nothing else:
    no other document, no generation, no security event.  Hence every
    identity's generation is what it was, [refreshToken] answers every
    token exactly as it did before the change, and a refresh token
    stamped with the identity's generation before the change still
    yields a new access token afterwards (for a stored, active
    identity). *)
Theorem C9_changePassword_keeps_generation
    (w w' : World) (id currentPassword newPassword : string) (now : Z) :
  changePassword bcrypt_hash bcrypt_compare id currentPassword newPassword
    now w = (Returned true, w') ->
  w' = withUsers
         (updateFirst (hasId id)
            (withPassword (bcrypt_hash newPassword 12) now) (users (db w)))
         w
  /\ tokenVersions w' = tokenVersions w
  /\ (forall userId : string,
        getTokenVersion userId w'
        = (Returned (default 0 (tokenVersions w !! userId)), w'))
  /\ (forall (token : Token) (now' : Z),
        fst (refreshToken hs256 env token now' w')
        = fst (refreshToken hs256 env token now' w))
  /\ (forall (u : User.t) (t0 now' : Z),
        stored w u -> User.id u = id -> User.isActive u = true ->
        refreshToken hs256 env
          (generateRefreshToken hs256 env
             {| rc_userId := id;
                rc_tokenVersion := default 0 (tokenVersions w !! id) |} t0)
          now' w'
        = (Returned
             {| rr_accessToken :=
                  generateAccessToken hs256 env
                    {| ac_userId := User.id u; ac_email := User.email u;
                       ac_role := roleName (User.role u) |} now';
                rr_expiresIn := getAccessTokenExpiryTime env |},
           w')).
Proof.
  intros Hrun.
  assert (Hw : w' = withUsers
                 (updateFirst (hasId id)
                    (withPassword (bcrypt_hash newPassword 12) now)
                    (users (db w))) w
               /\ fault (db w) = None).
  { revert Hrun.
    unfold changePassword, bind, getUserById, updateUser, findOne,
      findOneAndUpdate, ret.
    destruct (fault (db w)) as [m|] eqn:F; [discriminate|].
    destruct (List.find (hasId id) (users (db w))) as [u|]; [|discriminate].
    destruct (negb (bcrypt_compare currentPassword (User.password u)));
      [discriminate|].
    rewrite F. intros [= <-]. split; reflexivity. }
  destruct Hw as [-> Hfault].
  split; [reflexivity|]. split; [reflexivity|]. split; [reflexivity|].
  assert (Hframe : forall (token : Token) (now' : Z),
             fst (refreshToken hs256 env token now'
                    (withUsers
                       (updateFirst (hasId id)
                          (withPassword (bcrypt_hash newPassword 12) now)
                          (users (db w))) w))
             = fst (refreshToken hs256 env token now' w)).
  { intros token now'. apply refreshToken_frame; try reflexivity.
    intros i. simpl.
    pose proof (find_updateFirst_rel (hasId i) (hasId id)
                  (withPassword (bcrypt_hash newPassword 12) now)
                  (users (db w)) (fun _ => eq_refl)) as R.
    destruct (List.find (hasId i) (users (db w))),
             (List.find (hasId i) _); try exact R.
    destruct R as [->| ->]; repeat split. }
  split; [exact Hframe|].
  intros u t0 now' Hs Hid Ha. subst id.
  pose proof (stored_updated w u
                {| set_password := Some (bcrypt_hash newPassword 12);
                   set_loginAttempts := None; set_lockUntil := None;
                   set_lastLoginAt := None |} now Hs) as Hs'.
  exact (refreshToken_current_generation _ _ t0 now' Hs' Ha).
Qed.


(** *** Lockout *)

Lemma isAccountLocked_unlocked (w : World) (u : User.t) (now : Z) :
  User.lockUntil u = None -> isAccountLocked u now w = (Returned false, w).
Proof. intros E. unfold isAccountLocked. now rewrite E. Qed.

Lemma isAccountLocked_locked (w : World) (u : User.t) (now until : Z) :
  User.lockUntil u = Some until -> now < until ->
  isAccountLocked u now w = (Returned true, w).
Proof.
  intros E Hlt. unfold isAccountLocked. rewrite E.
  now replace (now <? until) with true by (symmetry; apply Z.ltb_lt; lia).
Qed.

Lemma isAccountLocked_expired (w : World) (u : User.t) (now until : Z) :
  stored w u -> User.lockUntil u = Some until -> until <= now ->
  isAccountLocked u now w = (Returned false, updated w u unlockPatch now).
Proof.
  intros Hs E Hle. unfold isAccountLocked. rewrite E.
  replace (now <? until) with false by (symmetry; apply Z.ltb_ge; lia).
  unfold bind. now rewrite (updateUser_stored w u _ now Hs).
Qed.

Lemma incrementLoginAttempts_stored (w : World) (u : User.t) (now : Z) :
  stored w u ->
  incrementLoginAttempts (User.id u) now w = (Returned tt, failureWorld w u now).
Proof.
  intros Hs. unfold incrementLoginAttempts, bind, failureWorld, failurePatch.
  rewrite (getUserById_stored w u Hs). cbv beta iota.
  destruct (5 <=? User.loginAttempts u + 1) eqn:T.
  - unfold securityEvent.
    now rewrite (updateUser_stored _ u _ now (stored_logged _ w u Hs)).
  - now rewrite (updateUser_stored w u _ now Hs).
Qed.

Lemma stored_failureWorld (w : World) (u : User.t) (now : Z) :
  stored w u -> stored (failureWorld w u now) (afterFailure now u).
Proof.
  intros Hs. unfold failureWorld, afterFailure.
  destruct (5 <=? User.loginAttempts u + 1);
    apply stored_updated; [apply stored_logged|]; exact Hs.
Qed.

Lemma isAccountLocked_notLockedAt (w : World) (u : User.t) (now : Z) :
  stored w u -> notLockedAt now u ->
  isAccountLocked u now w = (Returned false, unlockedWorld w u now)
  /\ stored (unlockedWorld w u now) (unlockedDoc now u).
Proof.
  intros Hs Hn. unfold notLockedAt, unlockedWorld, unlockedDoc in *.
  destruct (User.lockUntil u) as [until|] eqn:E.
  - split; [now apply (isAccountLocked_expired w u now until)|].
    now apply stored_updated.
  - split; [now apply isAccountLocked_unlocked | exact Hs].
Qed.

(** A login with a wrong password on a stored, active identity with no
    lock in force: after the lock check the counter is incremented
    through [incrementLoginAttempts], the attempt is logged, and
    "Invalid email or password" is raised. *)
Lemma login_wrong_password (w : World) (u : User.t) (pw : string)
    (ip userAgent : option string) (now : Z) :
  stored w u -> notLockedAt now u -> User.isActive u = true ->
  bcrypt_compare pw (User.password u) = false ->
  login hs256 bcrypt_compare env
    {| cred_email := User.email u; cred_password := pw |} ip userAgent now w
  = (Thrown invalidCredentials,
     logged (invalidPasswordEvent u ip userAgent)
       (failureWorld (unlockedWorld w u now) (unlockedDoc now u) now)).
Proof.
  intros Hs Hn Ha Hpw. unfold login, bind. cbn [cred_email cred_password].
  rewrite (getUserByEmail_stored w u Hs). cbv beta iota.
  destruct (isAccountLocked_notLockedAt w u now Hs Hn) as [-> Hs0].
  cbv beta iota. rewrite Ha, Hpw. cbn [negb].
  pose proof (incrementLoginAttempts_stored _ _ now Hs0) as E.
  replace (User.id (unlockedDoc now u)) with (User.id u) in E
    by (unfold unlockedDoc; now destruct (User.lockUntil u)).
  rewrite E. reflexivity.
Qed.

(** The same on an inactive identity: the password is not looked at. *)
Lemma login_inactive (w : World) (u : User.t) (pw : string)
    (ip userAgent : option string) (now : Z) :
  stored w u -> notLockedAt now u -> User.isActive u = false ->
  login hs256 bcrypt_compare env
    {| cred_email := User.email u; cred_password := pw |} ip userAgent now w
  = (Thrown accountInactive,
     logged (inactiveAccountEvent u ip userAgent) (unlockedWorld w u now)).
Proof.
  intros Hs Hn Ha. unfold login, bind. cbn [cred_email cred_password].
  rewrite (getUserByEmail_stored w u Hs). cbv beta iota.
  destruct (isAccountLocked_notLockedAt w u now Hs Hn) as [-> Hs0].
  cbv beta iota. rewrite Ha. reflexivity.
Qed.

(** While the lock is in force the login is refused before anything is
    written to the store. *)
Lemma login_locked (w : World) (u : User.t) (pw : string)
    (ip userAgent : option string) (now until : Z) :
  stored w u -> User.lockUntil u = Some until -> now < until ->
  login hs256 bcrypt_compare env
    {| cred_email := User.email u; cred_password := pw |} ip userAgent now w
  = (Thrown accountLocked, logged (lockedAccountEvent u ip userAgent) w).
Proof.
  intros Hs Hl Hlt. unfold login, bind. cbn [cred_email cred_password].
  rewrite (getUserByEmail_stored w u Hs). cbv beta iota.
  rewrite (isAccountLocked_locked w u now until Hl Hlt). reflexivity.
Qed.

(** An address no document carries: one low-severity event, nothing
    else. *)
Lemma login_unknown_email (w : World) (email pw : string)
    (ip userAgent : option string) (now : Z) :
  fault (db w) = None ->
  List.find (hasEmail email) (users (db w)) = None ->
  login hs256 bcrypt_compare env
    {| cred_email := email; cred_password := pw |} ip userAgent now w
  = (Thrown invalidCredentials, logged (invalidEmailEvent email ip userAgent) w).
Proof.
  intros Hf Hn. unfold login, bind, getUserByEmail, findOne.
  cbn [cred_email cred_password]. now rewrite Hf, Hn.
Qed.

(** A login with the right password. *)
Lemma login_success (w : World) (u : User.t) (pw : string)
    (ip userAgent : option string) (now : Z) :
  stored w u -> notLockedAt now u -> User.isActive u = true ->
  bcrypt_compare pw (User.password u) = true ->
  login hs256 bcrypt_compare env
    {| cred_email := User.email u; cred_password := pw |} ip userAgent now w
  = (Returned
       {| resp_user := userResponse u;
          resp_accessToken :=
            generateAccessToken hs256 env
              {| ac_userId := User.id u; ac_email := User.email u;
                 ac_role := roleName (User.role u) |} now;
          resp_refreshToken :=
            generateRefreshToken hs256 env
              {| rc_userId := User.id u;
                 rc_tokenVersion := default 0 (tokenVersions w !! User.id u) |}
              now;
          resp_expiresIn := getAccessTokenExpiryTime env |},
     updated (unlockedWorld w u now) (unlockedDoc now u) (successPatch now) now).
Proof.
  intros Hs Hn Ha Hpw. unfold login, bind. cbn [cred_email cred_password].
  rewrite (getUserByEmail_stored w u Hs). cbv beta iota.
  destruct (isAccountLocked_notLockedAt w u now Hs Hn) as [-> Hs0].
  cbv beta iota. rewrite Ha, Hpw. cbn [negb].
  unfold resetLoginAttempts, bind.
  pose proof (updateUser_stored _ _ (successPatch now) now Hs0) as E.
  replace (User.id (unlockedDoc now u)) with (User.id u) in E
    by (unfold unlockedDoc; now destruct (User.lockUntil u)).
  unfold successPatch in E. rewrite E. cbv beta iota.
  unfold getTokenVersion, ret, updated, unlockedWorld.
  destruct (User.lockUntil u); reflexivity.
Qed.


Lemma afterFailure_counter (now : Z) (u : User.t) :
  User.loginAttempts (afterFailure now u) = User.loginAttempts u + 1.
Proof. reflexivity. Qed.

Lemma afterFailure_lock (now : Z) (u : User.t) :
  User.lockUntil (afterFailure now u)
  = if 5 <=? User.loginAttempts u + 1 then Some (now + lockTime)
    else User.lockUntil u.
Proof.
  unfold afterFailure, failurePatch. cbn.
  destruct (5 <=? User.loginAttempts u + 1); reflexivity.
Qed.

(** One failed password check below the threshold: the account stays
    without a lock, and only the medium-severity event is logged. *)
Lemma failed_attempt_below_threshold (w : World) (u : User.t) (pw : string)
    (ip userAgent : option string) (now : Z) :
  stored w u -> User.lockUntil u = None -> User.isActive u = true ->
  bcrypt_compare pw (User.password u) = false ->
  User.loginAttempts u + 1 < 5 ->
  let r := login hs256 bcrypt_compare env
             {| cred_email := User.email u; cred_password := pw |}
             ip userAgent now w in
  fst r = Thrown invalidCredentials
  /\ stored (snd r) (afterFailure now u)
  /\ User.lockUntil (afterFailure now u) = None
  /\ securityLog (snd r)
     = (securityLog w ++ [invalidPasswordEvent u ip userAgent])%list.
Proof.
  intros Hs Hl Ha Hpw Hlt r.
  assert (Hn : notLockedAt now u) by (unfold notLockedAt; now rewrite Hl).
  subst r. rewrite (login_wrong_password w u pw ip userAgent now Hs Hn Ha Hpw).
  unfold unlockedWorld, unlockedDoc. rewrite Hl. cbn [fst snd].
  split; [reflexivity|]. split; [apply stored_logged, stored_failureWorld, Hs|].
  split.
  - rewrite afterFailure_lock, Hl.
    now replace (5 <=? User.loginAttempts u + 1) with false
      by (symmetry; apply Z.leb_gt; lia).
  - unfold failureWorld.
    now replace (5 <=? User.loginAttempts u + 1) with false
      by (symmetry; apply Z.leb_gt; lia).
Qed.

(** C4, as the code has it. For every stored, active identity with no
    lock set and [loginAttempts = 0], and every wrong password: each of
    four consecutive logins is refused with "Invalid email or password"
    and leaves the account without a lock (counter 1, 2, 3, 4, no
    high-severity event); the fifth sets [loginAttempts = 5] and
    [lockUntil = now + 30 minutes] and emits the high-severity
    [account_locked] event; a sixth login before [lockUntil] is refused
    with the account-locked error and writes nothing to the store. *)
Theorem C4_lockout_threshold_of_active_identity
    (w0 : World) (u : User.t) (pw : string) (ip userAgent : option string)
    (t1 t2 t3 t4 t5 t6 : Z) :
  stored w0 u ->
  User.isActive u = true ->
  User.lockUntil u = None ->
  User.loginAttempts u = 0 ->
  bcrypt_compare pw (User.password u) = false ->
  t6 < t5 + lockTime ->
  let attempt t w :=
    login hs256 bcrypt_compare env
      {| cred_email := User.email u; cred_password := pw |} ip userAgent t w in
  let u1 := afterFailure t1 u in
  let u2 := afterFailure t2 u1 in
  let u3 := afterFailure t3 u2 in
  let u4 := afterFailure t4 u3 in
  let u5 := afterFailure t5 u4 in
  let w1 := snd (attempt t1 w0) in
  let w2 := snd (attempt t2 w1) in
  let w3 := snd (attempt t3 w2) in
  let w4 := snd (attempt t4 w3) in
  let w5 := snd (attempt t5 w4) in
  (fst (attempt t1 w0) = Thrown invalidCredentials
   /\ fst (attempt t2 w1) = Thrown invalidCredentials
   /\ fst (attempt t3 w2) = Thrown invalidCredentials
   /\ fst (attempt t4 w3) = Thrown invalidCredentials)
  /\ (stored w1 u1 /\ stored w2 u2 /\ stored w3 u3 /\ stored w4 u4)
  /\ (User.lockUntil u1 = None /\ User.lockUntil u2 = None
      /\ User.lockUntil u3 = None /\ User.lockUntil u4 = None)
  /\ User.loginAttempts u4 = 4
  /\ securityLog w4
     = (securityLog w0
        ++ [invalidPasswordEvent u ip userAgent;
            invalidPasswordEvent u1 ip userAgent;
            invalidPasswordEvent u2 ip userAgent;
            invalidPasswordEvent u3 ip userAgent])%list
  /\ fst (attempt t5 w4) = Thrown invalidCredentials
  /\ stored w5 u5
  /\ User.loginAttempts u5 = 5
  /\ User.lockUntil u5 = Some (t5 + lockTime)
  /\ securityLog w5
     = (securityLog w4
        ++ [accountLockedEvent (User.id u) 5 (t5 + lockTime);
            invalidPasswordEvent u4 ip userAgent])%list
  /\ severity (accountLockedEvent (User.id u) 5 (t5 + lockTime)) = High
  /\ attempt t6 w5
     = (Thrown accountLocked, logged (lockedAccountEvent u5 ip userAgent) w5)
  /\ db (snd (attempt t6 w5)) = db w5.
Proof.
  intros Hs Ha Hl H0 Hpw Ht6 attempt u1 u2 u3 u4 u5 w1 w2 w3 w4 w5.
  assert (C1 : User.loginAttempts u1 = 1)
    by (unfold u1; rewrite afterFailure_counter; lia).
  assert (C2 : User.loginAttempts u2 = 2)
    by (unfold u2; rewrite afterFailure_counter; lia).
  assert (C3 : User.loginAttempts u3 = 3)
    by (unfold u3; rewrite afterFailure_counter; lia).
  assert (C4 : User.loginAttempts u4 = 4)
    by (unfold u4; rewrite afterFailure_counter; lia).
  assert (C5 : User.loginAttempts u5 = 5)
    by (unfold u5; rewrite afterFailure_counter; lia).
  destruct (failed_attempt_below_threshold w0 u pw ip userAgent t1
              Hs Hl Ha Hpw ltac:(lia)) as (R1 & S1 & L1 & G1).
  fold u1 in S1, L1. fold (attempt t1 w0) in R1, S1, G1. fold w1 in S1, G1.
  destruct (failed_attempt_below_threshold w1 u1 pw ip userAgent t2
              S1 L1 Ha Hpw ltac:(lia)) as (R2 & S2 & L2 & G2).
  fold u2 in S2, L2. change (User.email u1) with (User.email u) in R2, S2, G2.
  fold (attempt t2 w1) in R2, S2, G2. fold w2 in S2, G2.
  destruct (failed_attempt_below_threshold w2 u2 pw ip userAgent t3
              S2 L2 Ha Hpw ltac:(lia)) as (R3 & S3 & L3 & G3).
  fold u3 in S3, L3. change (User.email u2) with (User.email u) in R3, S3, G3.
  fold (attempt t3 w2) in R3, S3, G3. fold w3 in S3, G3.
  destruct (failed_attempt_below_threshold w3 u3 pw ip userAgent t4
              S3 L3 Ha Hpw ltac:(lia)) as (R4 & S4 & L4 & G4).
  fold u4 in S4, L4. change (User.email u3) with (User.email u) in R4, S4, G4.
  fold (attempt t4 w3) in R4, S4, G4. fold w4 in S4, G4.
  assert (N4 : notLockedAt t5 u4) by (unfold notLockedAt; now rewrite L4).
  pose proof (login_wrong_password w4 u4 pw ip userAgent t5 S4 N4 Ha Hpw) as E5.
  change (User.email u4) with (User.email u) in E5.
  fold (attempt t5 w4) in E5.
  unfold unlockedWorld, unlockedDoc in E5. rewrite L4 in E5.
  assert (S5 : stored w5 u5).
  { unfold w5. rewrite E5. cbn [snd].
    apply stored_logged, stored_failureWorld, S4. }
  assert (L5 : User.lockUntil u5 = Some (t5 + lockTime)).
  { unfold u5. rewrite afterFailure_lock, C4. reflexivity. }
  assert (G5 : securityLog w5
               = (securityLog w4
                  ++ [accountLockedEvent (User.id u) 5 (t5 + lockTime);
                      invalidPasswordEvent u4 ip userAgent])%list).
  { unfold w5. rewrite E5. cbn [snd]. unfold failureWorld. rewrite C4.
    change (5 <=? 4 + 1) with true. cbv iota.
    unfold logged, updated, withUsers. cbn [securityLog].
    rewrite <- app_assoc. reflexivity. }
  pose proof (login_locked w5 u5 pw ip userAgent t6 (t5 + lockTime)
                S5 L5 Ht6) as E6.
  change (User.email u5) with (User.email u) in E6.
  fold (attempt t6 w5) in E6.
  split; [exact (conj R1 (conj R2 (conj R3 R4)))|].
  split; [exact (conj S1 (conj S2 (conj S3 S4)))|].
  split; [exact (conj L1 (conj L2 (conj L3 L4)))|].
  split; [exact C4|].
  split; [rewrite G4, G3, G2, G1; now rewrite <- !app_assoc|].
  split; [now rewrite E5|].
  split; [exact S5|]. split; [exact C5|]. split; [exact L5|].
  split; [exact G5|]. split; [reflexivity|]. split; [exact E6|].
  now rewrite E6.
Qed.


(** *** Unknown address against wrong password *)

(** C5, as the code has it. For every password, a login with an address
    no document carries and a login with the address of a stored
    identity that is active and under no lock in force, with a wrong
    password, raise the same error, "Invalid email or password".  The
    first run leaves the whole collection as it was; the second
    increments the counter of that identity (from 0 if an elapsed lock
    was just cleared) and touches no document of another id. *)
Theorem C5_same_error_for_unknown_address_and_wrong_password
    (w : World) (u : User.t) (unknown pw : string)
    (ip1 ua1 ip2 ua2 : option string) (now1 now2 : Z) :
  stored w u ->
  User.isActive u = true ->
  notLockedAt now2 u ->
  List.find (hasEmail unknown) (users (db w)) = None ->
  bcrypt_compare pw (User.password u) = false ->
  let r1 := login hs256 bcrypt_compare env
              {| cred_email := unknown; cred_password := pw |}
              ip1 ua1 now1 w in
  let r2 := login hs256 bcrypt_compare env
              {| cred_email := User.email u; cred_password := pw |}
              ip2 ua2 now2 w in
  fst r1 = Thrown invalidCredentials
  /\ fst r2 = Thrown invalidCredentials
  /\ fst r1 = fst r2
  /\ db (snd r1) = db w
  /\ stored (snd r2) (afterFailure now2 (unlockedDoc now2 u))
  /\ User.loginAttempts (afterFailure now2 (unlockedDoc now2 u))
     = User.loginAttempts (unlockedDoc now2 u) + 1
  /\ (forall i : string,
        i <> User.id u ->
        List.find (hasId i) (users (db (snd r2)))
        = List.find (hasId i) (users (db w))).
Proof.
  intros Hs Ha Hn Hu Hpw r1 r2.
  assert (E1 : r1 = (Thrown invalidCredentials,
                     logged (invalidEmailEvent unknown ip1 ua1) w))
    by (apply login_unknown_email; [apply Hs | exact Hu]).
  assert (E2 : r2 = (Thrown invalidCredentials,
                     logged (invalidPasswordEvent u ip2 ua2)
                       (failureWorld (unlockedWorld w u now2)
                          (unlockedDoc now2 u) now2)))
    by (now apply login_wrong_password).
  rewrite E1, E2. cbn [fst snd].
  destruct (isAccountLocked_notLockedAt w u now2 Hs Hn) as [_ Hs0].
  split; [reflexivity|]. split; [reflexivity|]. split; [reflexivity|].
  split; [reflexivity|].
  split; [apply stored_logged, stored_failureWorld, Hs0|].
  split; [reflexivity|].
  intros i Hi. unfold failureWorld.
  assert (Hid : User.id (unlockedDoc now2 u) = User.id u)
    by (unfold unlockedDoc; now destruct (User.lockUntil u)).
  change (db (logged ?e ?x)) with (db x).
  rewrite find_other_updated by congruence.
  destruct (5 <=? User.loginAttempts (unlockedDoc now2 u) + 1);
    change (db (logged ?e ?x)) with (db x);
    unfold unlockedWorld; destruct (User.lockUntil u);
    try reflexivity; now apply find_other_updated.
Qed.

(** *** Lazy unlock *)

(** C6. For every stored identity whose [lockUntil] is set and not
    after [now]: [isAccountLocked] first writes [lockUntil] cleared and
    [loginAttempts = 0] to the store and then answers false; a login at
    [now] goes through that query before anything else, so the attempt
    is evaluated on the unlocked account: a wrong password leaves the
    counter at 1 with no lock, a right one at 0 with [lastLoginAt]
    stamped, and an inactive identity is refused as inactive, never as
    locked. *)
Theorem C6_lazy_unlock_precedes_the_attempt
    (w : World) (u : User.t) (until now : Z) :
  stored w u ->
  User.lockUntil u = Some until ->
  until <= now ->
  let u0 := applySet unlockPatch now u in
  let w0 := updated w u unlockPatch now in
  isAccountLocked u now w = (Returned false, w0)
  /\ stored w0 u0
  /\ User.lockUntil u0 = None
  /\ User.loginAttempts u0 = 0
  /\ (forall (pw : string) (ip userAgent : option string),
        let r := login hs256 bcrypt_compare env
                   {| cred_email := User.email u; cred_password := pw |}
                   ip userAgent now w in
        if User.isActive u then
          if bcrypt_compare pw (User.password u) then
            (exists resp, fst r = Returned resp)
            /\ stored (snd r) (applySet (successPatch now) now u0)
            /\ User.loginAttempts (applySet (successPatch now) now u0) = 0
            /\ User.lockUntil (applySet (successPatch now) now u0) = None
            /\ User.lastLoginAt (applySet (successPatch now) now u0) = Some now
          else
            fst r = Thrown invalidCredentials
            /\ stored (snd r) (afterFailure now u0)
            /\ User.loginAttempts (afterFailure now u0) = 1
            /\ User.lockUntil (afterFailure now u0) = None
        else
          fst r = Thrown accountInactive
          /\ stored (snd r) u0).
Proof.
  intros Hs Hl Hle u0 w0.
  assert (Hn : notLockedAt now u) by (unfold notLockedAt; now rewrite Hl).
  assert (Hs0 : stored w0 u0) by now apply stored_updated.
  assert (Hu0 : unlockedDoc now u = u0) by (unfold unlockedDoc; now rewrite Hl).
  assert (Hw0 : unlockedWorld w u now = w0)
    by (unfold unlockedWorld; now rewrite Hl).
  split; [now apply (isAccountLocked_expired w u now until)|].
  split; [exact Hs0|]. split; [reflexivity|]. split; [reflexivity|].
  intros pw ip userAgent r.
  destruct (User.isActive u) eqn:Ha.
  - destruct (bcrypt_compare pw (User.password u)) eqn:Hpw.
    + pose proof (login_success w u pw ip userAgent now Hs Hn Ha Hpw) as E.
      rewrite Hu0, Hw0 in E. fold r in E. rewrite E. cbn [fst snd].
      split; [eexists; reflexivity|].
      split; [now apply stored_updated|]. repeat split.
    + pose proof (login_wrong_password w u pw ip userAgent now Hs Hn Ha Hpw)
        as E.
      rewrite Hu0, Hw0 in E. fold r in E. rewrite E. cbn [fst snd].
      split; [reflexivity|].
      split; [apply stored_logged, stored_failureWorld, Hs0|].
      split; reflexivity.
  - pose proof (login_inactive w u pw ip userAgent now Hs Hn Ha) as E.
    rewrite Hw0 in E. fold r in E. rewrite E. cbn [fst snd].
    split; [reflexivity | apply stored_logged, Hs0].
Qed.

End ServiceProperties.

(** ** Closed instances *)

Lemma stored_sample_alice : stored sampleWorld alice.
Proof. split; [reflexivity | split; reflexivity]. Qed.

Lemma stored_sample_bob : stored sampleWorld bob.
Proof. split; [reflexivity | split; reflexivity]. Qed.

Lemma stored_sample_carol : stored sampleWorld carol.
Proof. split; [reflexivity | split; reflexivity]. Qed.

(** Alice at generation 0: after logout her generation-0 token is
    refused and a generation-1 token is exchanged for an access token. *)
Lemma C3_logout_revokes_generation_witness :
  let w' := snd (logout "u-alice" sampleWorld) in
  refreshToken ideal_hs256 env_default
    (generateRefreshToken ideal_hs256 env_default
       {| rc_userId := "u-alice"; rc_tokenVersion := 0 |} 1000) 2000 w'
  = (Thrown invalidRefreshToken, w')
  /\ refreshToken ideal_hs256 env_default
       (generateRefreshToken ideal_hs256 env_default
          {| rc_userId := "u-alice"; rc_tokenVersion := 0 + 1 |} 1500) 2000 w'
     = (Returned
          {| rr_accessToken :=
               generateAccessToken ideal_hs256 env_default aliceClaims 2000;
             rr_expiresIn := Some 900 |},
        w').
Proof.
  destruct (C3_logout_revokes_generation ideal_hs256 env_default
              sampleWorld "u-alice" 0 eq_refl)
    as (_ & _ & _ & Hold & Hnew).
  split.
  - exact (Hold 1000 2000).
  - exact (Hnew alice 1500 2000 stored_sample_alice eq_refl eq_refl).
Defined.

(** Alice, five wrong passwords one second apart, then a sixth attempt
    one second after the lock. *)
Lemma C4_lockout_threshold_witness :
  let attempt t w :=
    login ideal_hs256 toy_compare env_default
      {| cred_email := "alice@x.com"; cred_password := "wrong" |}
      None None t w in
  let w4 := snd (attempt 4000 (snd (attempt 3000 (snd (attempt 2000
              (snd (attempt 1000 sampleWorld))))))) in
  let w5 := snd (attempt 5000 w4) in
  fst (attempt 4000 (snd (attempt 3000 (snd (attempt 2000
         (snd (attempt 1000 sampleWorld))))))) = Thrown invalidCredentials
  /\ fst (attempt 5000 w4) = Thrown invalidCredentials
  /\ fst (attempt 6000 w5) = Thrown accountLocked
  /\ db (snd (attempt 6000 w5)) = db w5.
Proof.
  pose proof (C4_lockout_threshold_of_active_identity
                ideal_hs256 toy_compare env_default
                sampleWorld alice "wrong" None None
                1000 2000 3000 4000 5000 6000
                stored_sample_alice eq_refl eq_refl eq_refl eq_refl eq_refl)
    as H.
  cbv zeta in H.
  destruct H as ((_ & _ & _ & R4) & _ & _ & _ & _ & R5 & _ & _ & _ & _ & _ & E6 & D6).
  cbv zeta. split; [exact R4|]. split; [exact R5|].
  split; [exact (f_equal fst E6) | exact D6].
Defined.

(** C4 fails as stated for an inactive identity: it starts with no lock
    and [loginAttempts = 0], yet five logins with a wrong password are
    each refused as "Account is deactivated", the stored document is
    what it was (no lock, counter 0), and no high-severity event is
    logged. *)
Lemma C4_inactive_identity_counterexample :
  let attempt t w :=
    login ideal_hs256 toy_compare env_default
      {| cred_email := "bob@x.com"; cred_password := "wrong" |}
      None None t w in
  let w4 := snd (attempt 4000 (snd (attempt 3000 (snd (attempt 2000
              (snd (attempt 1000 sampleWorld))))))) in
  let w5 := snd (attempt 5000 w4) in
  (stored sampleWorld bob
   /\ User.lockUntil bob = None /\ User.loginAttempts bob = 0
   /\ toy_compare "wrong" (User.password bob) = false)
  /\ fst (attempt 5000 w4) = Thrown accountInactive
  /\ List.find (hasId "u-bob") (users (db w5)) = Some bob
  /\ User.lockUntil bob <> Some (5000 + lockTime)
  /\ Forall (fun e => severity e <> High) (securityLog w5).
Proof.
  cbv zeta. split.
  { split; [exact stored_sample_bob|]. repeat split. }
  split; [vm_compute; reflexivity|].
  split; [vm_compute; reflexivity|].
  split; [discriminate|].
  vm_compute. repeat (constructor; [discriminate|]). constructor.
Qed.

(** An unknown address and Alice's address with a wrong password. *)
Lemma C5_same_error_witness :
  let r1 := login ideal_hs256 toy_compare env_default
              {| cred_email := "doesnotexist@x.com"; cred_password := "wrong" |}
              None None 1000 sampleWorld in
  let r2 := login ideal_hs256 toy_compare env_default
              {| cred_email := "alice@x.com"; cred_password := "wrong" |}
              None None 1000 sampleWorld in
  fst r1 = fst r2
  /\ db (snd r1) = db sampleWorld
  /\ stored (snd r2) (afterFailure 1000 alice).
Proof.
  pose proof (C5_same_error_for_unknown_address_and_wrong_password
                ideal_hs256 toy_compare env_default
                sampleWorld alice "doesnotexist@x.com" "wrong"
                None None None None 1000 1000
                stored_sample_alice eq_refl I eq_refl eq_refl) as H.
  cbv zeta in H. destruct H as (_ & _ & E & D & S & _).
  cbv zeta. split; [exact E|]. split; [exact D | exact S].
Defined.

(** C5 fails as stated for a stored identity under a lock in force (and
    likewise for an inactive one): with the same wrong password, the
    unknown address is answered "Invalid email or password" while the
    stored address is answered with the account-locked (respectively
    deactivated) message, so the two answers differ. *)
Lemma C5_locked_identity_counterexample :
  let p := "wrong" in
  let r1 := login ideal_hs256 toy_compare env_default
              {| cred_email := "doesnotexist@x.com"; cred_password := p |}
              None None 1000 sampleWorld in
  let r2 := login ideal_hs256 toy_compare env_default
              {| cred_email := "carol@x.com"; cred_password := p |}
              None None 1000 sampleWorld in
  let r3 := login ideal_hs256 toy_compare env_default
              {| cred_email := "bob@x.com"; cred_password := p |}
              None None 1000 sampleWorld in
  (List.find (hasEmail "doesnotexist@x.com") (users (db sampleWorld)) = None
   /\ stored sampleWorld carol
   /\ toy_compare p (User.password carol) = false
   /\ stored sampleWorld bob
   /\ toy_compare p (User.password bob) = false)
  /\ fst r1 = Thrown invalidCredentials
  /\ fst r2 = Thrown accountLocked
  /\ fst r3 = Thrown accountInactive
  /\ fst r1 <> fst r2
  /\ fst r1 <> fst r3.
Proof.
  cbv zeta. split.
  { split; [reflexivity|]. split; [exact stored_sample_carol|].
    split; [reflexivity|]. split; [exact stored_sample_bob | reflexivity]. }
  split; [vm_compute; reflexivity|].
  split; [vm_compute; reflexivity|].
  split; [vm_compute; reflexivity|].
  split; vm_compute; discriminate.
Qed.

(** Carol, locked until instant 1800000, queried at exactly that
    instant. *)
Lemma C6_lazy_unlock_witness :
  isAccountLocked carol 1800000 sampleWorld
  = (Returned false, updated sampleWorld carol unlockPatch 1800000)
  /\ fst (login ideal_hs256 toy_compare env_default
            {| cred_email := "carol@x.com"; cred_password := "wrong" |}
            None None 1800000 sampleWorld)
     = Thrown invalidCredentials
  /\ User.loginAttempts
       (afterFailure 1800000 (applySet unlockPatch 1800000 carol)) = 1.
Proof.
  pose proof (C6_lazy_unlock_precedes_the_attempt
                ideal_hs256 toy_compare env_default
                sampleWorld carol 1800000 1800000
                stored_sample_carol eq_refl ltac:(lia)) as H.
  cbv zeta in H. destruct H as (Q & _ & _ & _ & L).
  specialize (L "wrong" None None). cbv zeta in L.
  change (User.isActive carol) with true in L.
  change (toy_compare "wrong" (User.password carol)) with false in L.
  cbv iota in L. destruct L as (R & _ & C & _).
  split; [exact Q|]. split; [exact R | exact C].
Defined.

(** Alice changes her password; her generation-0 refresh token still
    yields an access token. *)
Lemma C9_changePassword_keeps_generation_witness :
  let w' := snd (changePassword toy_hash toy_compare "u-alice"
                   "Correct#Horse1" "N3w!Passphrase" 7000 sampleWorld) in
  tokenVersions w' = tokenVersions sampleWorld
  /\ refreshToken ideal_hs256 env_default
       (generateRefreshToken ideal_hs256 env_default
          {| rc_userId := "u-alice"; rc_tokenVersion := 0 |} 1000) 8000 w'
     = (Returned
          {| rr_accessToken :=
               generateAccessToken ideal_hs256 env_default aliceClaims 8000;
             rr_expiresIn := Some 900 |},
        w').
Proof.
  destruct (C9_changePassword_keeps_generation
              ideal_hs256 toy_hash toy_compare env_default
              sampleWorld
              (snd (changePassword toy_hash toy_compare "u-alice"
                      "Correct#Horse1" "N3w!Passphrase" 7000 sampleWorld))
              "u-alice" "Correct#Horse1" "N3w!Passphrase" 7000 eq_refl)
    as (_ & Htv & _ & _ & Hnew).
  split; [exact Htv|].
  exact (Hnew alice 1000 8000 stored_sample_alice eq_refl eq_refl).
Defined.

(** * Further properties *)

(** ** The strength check, continued *)

(** X1. The score and the feedback of [validatePasswordStrength] account
    for each other: six criteria either score a point or leave one
    message, and length 12 adds a point without a message.  So a
    password reported valid has at most two messages, and one with three
    or more messages is never valid. *)
Theorem X1_strength_score_counts_feedback (password : string) :
  let r := validatePasswordStrength password in
  score r
  = 6 - Z.of_nat (List.length (feedback r))
    + (if 12 <=? Z.of_nat (String.length password) then 1 else 0)
  /\ (isValid r = true -> (List.length (feedback r) <= 2)%nat)
  /\ ((3 <= List.length (feedback r))%nat -> isValid r = false).
Proof.
  unfold validatePasswordStrength. cbv zeta. cbn [score feedback isValid].
  set (a1 := criterion (8 <=? _) _ (0, [])).
  pose proof (criterion_balance (8 <=? Z.of_nat (String.length password))
                "Password should be at least 8 characters long" (0, [])) as H1.
  fold a1 in H1. cbn [fst snd List.length] in H1. clearbody a1.
  set (a2 := if 12 <=? _ then _ else a1).
  assert (H2 : fst a2 + Z.of_nat (List.length (snd a2))
               = fst a1 + Z.of_nat (List.length (snd a1))
                 + (if 12 <=? Z.of_nat (String.length password) then 1 else 0)).
  { subst a2. destruct (12 <=? Z.of_nat (String.length password));
      cbn [fst snd]; lia. }
  clearbody a2.
  set (a3 := criterion _ _ a2).
  pose proof (criterion_balance (testClass isLower password)
                "Password should contain lowercase letters" a2) as H3.
  fold a3 in H3. clearbody a3.
  set (a4 := criterion _ _ a3).
  pose proof (criterion_balance (testClass isUpper password)
                "Password should contain uppercase letters" a3) as H4.
  fold a4 in H4. clearbody a4.
  set (a5 := criterion _ _ a4).
  pose proof (criterion_balance (testClass isDigit password)
                "Password should contain numbers" a4) as H5.
  fold a5 in H5. clearbody a5.
  set (a6 := criterion _ _ a5).
  pose proof (criterion_balance (testClass isSpecial password)
                "Password should contain special characters" a5) as H6.
  fold a6 in H6. clearbody a6.
  set (a7 := criterion _ _ a6).
  pose proof (criterion_balance (negb (testRepeated password))
                "Password should not contain repeated characters" a6) as H7.
  fold a7 in H7. clearbody a7.
  destruct (12 <=? Z.of_nat (String.length password));
    (split; [lia|]); split.
  - intros V. apply Z.leb_le in V. lia.
  - intros L. apply Z.leb_gt. lia.
  - intros V. apply Z.leb_le in V. lia.
  - intros L. apply Z.leb_gt. lia.
Qed.

(** X2. The advisory check has no minimum length of its own: every
    password with a lowercase letter, an uppercase letter, a digit and a
    special character and no character three times in a row is reported
    valid, however short, and the only message it can get is the one
    about length. *)
Theorem X2_strength_valid_without_length (password : string) :
  testClass isLower password = true ->
  testClass isUpper password = true ->
  testClass isDigit password = true ->
  testClass isSpecial password = true ->
  testRepeated password = false ->
  isValid (validatePasswordStrength password) = true
  /\ feedback (validatePasswordStrength password)
     = if 8 <=? Z.of_nat (String.length password) then []
       else ["Password should be at least 8 characters long"].
Proof.
  intros Hl Hu Hd Hs Hr. unfold validatePasswordStrength. cbv zeta.
  cbn [isValid feedback].
  set (a2 := if 12 <=? _ then _ else _).
  assert (H2 : 0 <= fst a2
               /\ snd a2 = if 8 <=? Z.of_nat (String.length password) then []
                           else ["Password should be at least 8 characters long"]).
  { subst a2. unfold criterion.
    destruct (8 <=? Z.of_nat (String.length password)),
             (12 <=? Z.of_nat (String.length password));
      cbn [fst snd]; split; (lia || reflexivity). }
  clearbody a2. destruct H2 as [H2 <-].
  rewrite Hl, Hu, Hd, Hs, Hr. cbn [negb]. rewrite !criterion_true.
  cbn [fst snd]. split; [apply Z.leb_le; lia | reflexivity].
Qed.

(** The four-character password [aB1!]. *)
Lemma X2_strength_valid_without_length_witness :
  isValid (validatePasswordStrength "aB1!") = true
  /\ feedback (validatePasswordStrength "aB1!")
     = ["Password should be at least 8 characters long"].
Proof.
  exact (X2_strength_valid_without_length "aB1!"
           eq_refl eq_refl eq_refl eq_refl eq_refl).
Defined.

(** ** Configuration *)

(** X3. For every environment both signing secrets are non-empty, and a
    variable that is unset or set to the empty string yields the
    built-in default: the secrets and the access lifetime of such an
    environment are the constants written in [jwt.ts]. *)
Theorem X3_secrets_fall_back_to_defaults (env : Env) :
  ACCESS_TOKEN_SECRET env <> ""
  /\ REFRESH_TOKEN_SECRET env <> ""
  /\ (JWT_ACCESS_SECRET env = None \/ JWT_ACCESS_SECRET env = Some "" ->
      ACCESS_TOKEN_SECRET env = "your-super-secret-access-key")
  /\ (JWT_REFRESH_SECRET env = None \/ JWT_REFRESH_SECRET env = Some "" ->
      REFRESH_TOKEN_SECRET env = "your-super-secret-refresh-key")
  /\ (JWT_ACCESS_EXPIRY env = None \/ JWT_ACCESS_EXPIRY env = Some "" ->
      getAccessTokenExpiryTime env = Some 900).
Proof.
  unfold ACCESS_TOKEN_SECRET, REFRESH_TOKEN_SECRET, getAccessTokenExpiryTime,
    ACCESS_TOKEN_EXPIRY, orDefault.
  repeat split.
  - destruct (JWT_ACCESS_SECRET env) as [s|]; [|discriminate].
    destruct (decide (s = "")); [discriminate | assumption].
  - destruct (JWT_REFRESH_SECRET env) as [s|]; [|discriminate].
    destruct (decide (s = "")); [discriminate | assumption].
  - intros [-> | ->]; reflexivity.
  - intros [-> | ->]; reflexivity.
  - intros [-> | ->]; reflexivity.
Qed.

(** ** Lifetimes *)

Lemma digitChar_cases (d : Z) :
  isDecimalDigit d ->
  d = 0 \/ d = 1 \/ d = 2 \/ d = 3 \/ d = 4 \/ d = 5 \/ d = 6 \/ d = 7
  \/ d = 8 \/ d = 9.
Proof. unfold isDecimalDigit. lia. Qed.

Lemma digitValue_digitChar (d : Z) :
  isDecimalDigit d -> digitValue (digitChar d) = Some d.
Proof.
  intros H. apply digitChar_cases in H.
  repeat (destruct H as [-> | H]; [reflexivity|]). subst. reflexivity.
Qed.

(** Reading a numeral followed by something that is not a decimal digit. *)
Lemma readDigits_numeral (ds : list Z) (suffix : string) (acc : option Z) :
  Forall isDecimalDigit ds ->
  (forall a, readDigits 10 suffix a = a) ->
  readDigits 10 (numeral ds ++ suffix) acc
  = match ds with
    | [] => acc
    | _ => Some (fold_left (fun a d => a * 10 + d) ds (default 0 acc))
    end.
Proof.
  intros Hds Hsuf. revert acc.
  induction Hds as [|d ds Hd Hds IH]; intros acc.
  - apply Hsuf.
  - change (numeral (d :: ds) ++ suffix)
      with (String (digitChar d) (numeral ds ++ suffix)).
    cbn [readDigits]. rewrite (digitValue_digitChar d Hd).
    replace (d <? 10) with true
      by (symmetry; apply Z.ltb_lt; unfold isDecimalDigit in Hd; lia).
    rewrite IH. destruct ds; reflexivity.
Qed.

(** [parseInt] of a numeral followed by a unit letter or nothing. *)
Lemma parseInt_numeral (d : Z) (ds : list Z) (suffix : string) :
  isDecimalDigit d -> Forall isDecimalDigit ds ->
  In suffix [""; "m"; "h"; "d"; "s"] ->
  parseInt (numeral (d :: ds) ++ suffix) = Some (numeralValue (d :: ds)).
Proof.
  intros Hd Hds Hsuf.
  assert (Hread : readDigits 10 (numeral (d :: ds) ++ suffix) None
                  = Some (numeralValue (d :: ds))).
  { rewrite readDigits_numeral; [reflexivity | now constructor |].
    intros a. simpl in Hsuf.
    repeat (destruct Hsuf as [<- | Hsuf]; [reflexivity|]). contradiction. }
  assert (Hplain : parseInt (numeral (d :: ds) ++ suffix)
                   = (fun n => 1 * n)
                       <$> readDigits 10 (numeral (d :: ds) ++ suffix) None).
  { change (numeral (d :: ds) ++ suffix)
      with (String (digitChar d) (numeral ds ++ suffix)).
    destruct ds as [|d2 ds'].
    - change (numeral [] ++ suffix) with suffix.
      apply digitChar_cases in Hd. simpl in Hsuf.
      repeat (destruct Hd as [-> | Hd]);
        repeat (destruct Hsuf as [<- | Hsuf]); try contradiction;
        subst; reflexivity.
    - change (numeral (d2 :: ds') ++ suffix)
        with (String (digitChar d2) (numeral ds' ++ suffix)).
      inversion Hds as [|? ? Hd2 _]; subst.
      apply digitChar_cases in Hd. apply digitChar_cases in Hd2.
      generalize (numeral ds' ++ suffix). intros tail.
      repeat (destruct Hd as [-> | Hd]); subst;
        try reflexivity;
        repeat (destruct Hd2 as [-> | Hd2]); subst; reflexivity. }
  rewrite Hplain, Hread. cbn. f_equal. lia.
Qed.

Lemma endsWith_last (s : string) (c c' : ascii) :
  endsWith (s ++ String c "") (String c' "") = Ascii.eqb c c'.
Proof.
  induction s as [|x rest IH].
  - change ("" ++ String c "") with (String c "").
    destruct (Ascii.eqb_spec c c') as [->|Hne].
    + unfold endsWith. now rewrite String.eqb_refl.
    + cbn [endsWith].
      replace (String.eqb (String c "") (String c' "")) with false
        by (symmetry; apply String.eqb_neq; congruence).
      reflexivity.
  - change ((String x rest) ++ String c "")
      with (String x (rest ++ String c "")).
    cbn [endsWith]. rewrite IH.
    replace (String.eqb (String x (rest ++ String c "")) (String c' ""))
      with false; [reflexivity|].
    symmetry. apply String.eqb_neq. destruct rest; discriminate.
Qed.

Lemma endsWith_char_In (s : string) (c' : ascii) :
  endsWith s (String c' "") = true -> In c' (list_ascii_of_string s).
Proof.
  induction s as [|x rest IH]; [discriminate|].
  cbn [endsWith list_ascii_of_string].
  destruct (String.eqb_spec (String x rest) (String c' "")) as [E|_].
  - injection E as -> _. intros _. now left.
  - intros H. right. auto.
Qed.

(** A numeral does not end with a unit letter. *)
Lemma endsWith_numeral (ds : list Z) (c' : ascii) :
  Forall isDecimalDigit ds ->
  In c' ["m"; "h"; "d"]%char ->
  endsWith (numeral ds) (String c' "") = false.
Proof.
  intros Hds Hc. destruct (endsWith (numeral ds) (String c' "")) eqn:E;
    [|reflexivity].
  apply endsWith_char_In in E. unfold numeral in E.
  rewrite list_ascii_of_string_of_list_ascii in E.
  apply in_map_iff in E as (d & Hd & Hin).
  rewrite List.Forall_forall in Hds. apply Hds, digitChar_cases in Hin.
  repeat (destruct Hin as [-> | Hin]); subst;
    vm_compute in Hc; intuition discriminate.
Qed.

Lemma append_empty_r (s : string) : s ++ "" = s.
Proof.
  induction s as [|c s IH]; [reflexivity|].
  change (String c (s ++ "") = String c s). now rewrite IH.
Qed.

Lemma ACCESS_TOKEN_EXPIRY_set (env : Env) (c : ascii) (s : string) :
  JWT_ACCESS_EXPIRY env = Some (String c s) ->
  ACCESS_TOKEN_EXPIRY env = String c s.
Proof. intros E. unfold ACCESS_TOKEN_EXPIRY. rewrite E. reflexivity. Qed.

(** X4. [getAccessTokenExpiryTime] converts a configured lifetime made of
    decimal digits and a unit letter into seconds: minutes times 60,
    hours times 3600, days times 86400; digits alone, or digits followed
    by [s], are taken as seconds.  This holds as long as the number of
    seconds does not exceed [Number.MAX_SAFE_INTEGER], 2^53 - 1: up to
    there the code's double arithmetic is exact; beyond it the code
    rounds, and nothing is stated. *)
Theorem X4_expiry_units_in_seconds (env : Env) (d : Z) (ds : list Z) :
  isDecimalDigit d ->
  Forall isDecimalDigit ds ->
  let digits := numeral (d :: ds) in
  let n := numeralValue (d :: ds) in
  (JWT_ACCESS_EXPIRY env = Some (digits ++ "m") ->
   n * 60 <= MAX_SAFE_INTEGER ->
   getAccessTokenExpiryTime env = Some (n * 60))
  /\ (JWT_ACCESS_EXPIRY env = Some (digits ++ "h") ->
      n * 60 * 60 <= MAX_SAFE_INTEGER ->
      getAccessTokenExpiryTime env = Some (n * 60 * 60))
  /\ (JWT_ACCESS_EXPIRY env = Some (digits ++ "d") ->
      n * 24 * 60 * 60 <= MAX_SAFE_INTEGER ->
      getAccessTokenExpiryTime env = Some (n * 24 * 60 * 60))
  /\ (JWT_ACCESS_EXPIRY env = Some digits ->
      n <= MAX_SAFE_INTEGER ->
      getAccessTokenExpiryTime env = Some n)
  /\ (JWT_ACCESS_EXPIRY env = Some (digits ++ "s") ->
      n <= MAX_SAFE_INTEGER ->
      getAccessTokenExpiryTime env = Some n).
Proof.
  intros Hd Hds digits n.
  assert (Hall : Forall isDecimalDigit (d :: ds)) by now constructor.
  assert (Hp : forall suffix, In suffix [""; "m"; "h"; "d"; "s"] ->
                 parseInt (digits ++ suffix) = Some n)
    by (intros; now apply parseInt_numeral).
  assert (Hshape : forall suffix,
             digits ++ suffix
             = String (digitChar d) (numeral ds ++ suffix)) by reflexivity.
  unfold getAccessTokenExpiryTime.
  repeat split; intros E _.
  - rewrite Hshape in E. rewrite (ACCESS_TOKEN_EXPIRY_set _ _ _ E).
    rewrite <- Hshape. rewrite (endsWith_last digits "m" "m").
    cbn [Ascii.eqb]. rewrite Hp by (simpl; tauto). reflexivity.
  - rewrite Hshape in E. rewrite (ACCESS_TOKEN_EXPIRY_set _ _ _ E).
    rewrite <- Hshape. rewrite (endsWith_last digits "h" "m").
    rewrite (endsWith_last digits "h" "h").
    rewrite Hp by (simpl; tauto). reflexivity.
  - rewrite Hshape in E. rewrite (ACCESS_TOKEN_EXPIRY_set _ _ _ E).
    rewrite <- Hshape. rewrite (endsWith_last digits "d" "m").
    rewrite (endsWith_last digits "d" "h").
    rewrite (endsWith_last digits "d" "d").
    rewrite Hp by (simpl; tauto). reflexivity.
  - pose proof (Hp "" ltac:(simpl; tauto)) as P.
    rewrite append_empty_r in P.
    change digits with (String (digitChar d) (numeral ds)) in E.
    rewrite (ACCESS_TOKEN_EXPIRY_set _ _ _ E).
    change (String (digitChar d) (numeral ds)) with (numeral (d :: ds)).
    rewrite (endsWith_numeral (d :: ds) "m") by (try exact Hall; simpl; tauto).
    rewrite (endsWith_numeral (d :: ds) "h") by (try exact Hall; simpl; tauto).
    rewrite (endsWith_numeral (d :: ds) "d") by (try exact Hall; simpl; tauto).
    exact P.
  - rewrite Hshape in E. rewrite (ACCESS_TOKEN_EXPIRY_set _ _ _ E).
    rewrite <- Hshape. rewrite (endsWith_last digits "s" "m").
    rewrite (endsWith_last digits "s" "h").
    rewrite (endsWith_last digits "s" "d").
    rewrite Hp by (simpl; tauto). reflexivity.
Qed.

(** The lifetimes [90m] and [7d]. *)
Lemma X4_expiry_units_witness :
  getAccessTokenExpiryTime (withAccessExpiry "90m") = Some 5400
  /\ getAccessTokenExpiryTime (withAccessExpiry "7d") = Some 604800.
Proof.
  split.
  - apply (proj1 (X4_expiry_units_in_seconds (withAccessExpiry "90m") 9 [0]
                    ltac:(unfold isDecimalDigit; lia)
                    ltac:(repeat constructor; unfold isDecimalDigit; lia))).
    + reflexivity.
    + vm_compute. discriminate.
  - apply (proj1 (proj2 (proj2
             (X4_expiry_units_in_seconds (withAccessExpiry "7d") 7 []
                ltac:(unfold isDecimalDigit; lia) ltac:(constructor))))).
    + reflexivity.
    + vm_compute. discriminate.
Defined.

(** ** The token codec, continued *)

Section MoreTokenProperties.

Context {Sig : Type} `{!EqDecision Sig}.
Variable hs256 : string -> Claims.t -> Sig.
Variable env : Env.

(** X5. Refresh tokens carry no [exp] either: [verifyRefreshToken]
    returns the claims of a token of [generateRefreshToken] at every
    instant, whatever lifetimes are configured, and both signing calls
    produce the same token under any two environments with the same
    secrets. *)
Theorem X5_refresh_token_never_expires
    (c : RefreshClaims) (a : AccessClaims) (t now : Z) (env' : Env) :
  verifyRefreshToken hs256 env (generateRefreshToken hs256 env c t) now
    = Returned (stampedRefresh c t)
  /\ Claims.exp (stampedRefresh c t) = None
  /\ (JWT_ACCESS_SECRET env' = JWT_ACCESS_SECRET env ->
      generateAccessToken hs256 env' a t = generateAccessToken hs256 env a t)
  /\ (JWT_REFRESH_SECRET env' = JWT_REFRESH_SECRET env ->
      generateRefreshToken hs256 env' c t = generateRefreshToken hs256 env c t).
Proof.
  split; [apply verifyRefreshToken_generateRefreshToken|].
  split; [reflexivity|]. split; intros E.
  - rewrite !generateAccessToken_eq. unfold ACCESS_TOKEN_SECRET. now rewrite E.
  - rewrite !generateRefreshToken_eq. unfold REFRESH_TOKEN_SECRET. now rewrite E.
Qed.

(** X6. [verifyAccessToken] does enforce an [exp] that a token carries:
    a payload with the service's issuer and audience, signed under the
    access secret, is returned while the instant in whole seconds is
    before [exp], and refused from [exp] on. *)
Theorem X6_verifyAccessToken_enforces_exp (p : Claims.t) (e now : Z) :
  Claims.exp p = Some e ->
  Claims.iss p = Some "quote-service" ->
  Claims.aud p = Some "quote-service-users" ->
  let token := Jws p (hs256 (ACCESS_TOKEN_SECRET env) p) in
  (now / 1000 < e -> verifyAccessToken hs256 env token now = Returned p)
  /\ (e <= now / 1000 ->
      verifyAccessToken hs256 env token now
      = Thrown "Invalid or expired access token").
Proof.
  intros He Hi Ha token. subst token.
  unfold verifyAccessToken, jwt_verify.
  rewrite bool_decide_eq_true_2 by reflexivity. cbn [negb].
  rewrite He, Hi, Ha. rewrite !bool_decide_eq_true_2 by reflexivity.
  cbn [negb]. split; intros H.
  - now replace (e <=? now / 1000) with false
      by (symmetry; apply Z.leb_gt; lia).
  - now replace (e <=? now / 1000) with true
      by (symmetry; apply Z.leb_le; lia).
Qed.


End MoreTokenProperties.

(** A token that expires at second 900, verified at 899.999 s and at
    900 s. *)
Lemma X6_verifyAccessToken_enforces_exp_witness :
  let p := {| Claims.userId := "u-alice"; Claims.email := Some "alice@x.com";
              Claims.role := Some "user"; Claims.tokenVersion := None;
              Claims.iat := Some 0; Claims.exp := Some 900;
              Claims.iss := Some "quote-service";
              Claims.aud := Some "quote-service-users" |} in
  let token := Jws p (ideal_hs256 (ACCESS_TOKEN_SECRET env_default) p) in
  verifyAccessToken ideal_hs256 env_default token 899999 = Returned p
  /\ verifyAccessToken ideal_hs256 env_default token 900000
     = Thrown "Invalid or expired access token".
Proof.
  cbv zeta.
  pose proof (X6_verifyAccessToken_enforces_exp ideal_hs256 env_default
                {| Claims.userId := "u-alice"; Claims.email := Some "alice@x.com";
                   Claims.role := Some "user"; Claims.tokenVersion := None;
                   Claims.iat := Some 0; Claims.exp := Some 900;
                   Claims.iss := Some "quote-service";
                   Claims.aud := Some "quote-service-users" |} 900)
    as H.
  split.
  - exact (proj1 (H 899999 eq_refl eq_refl eq_refl) eq_refl).
  - exact (proj2 (H 900000 eq_refl eq_refl eq_refl) ltac:(discriminate)).
Defined.


(** ** Running computations *)

Lemma bind_Returned_inv {A B} (m : M A) (k : A -> M B) (w w' : World) (b : B) :
  bind m k w = (Returned b, w') ->
  exists a w1, m w = (Returned a, w1) /\ k a w1 = (Returned b, w').
Proof.
  unfold bind. destruct (m w) as [[a|e] w1]; [eauto | discriminate].
Qed.

Lemma bind_Returned {A B} (m : M A) (k : A -> M B) (w w1 : World) (a : A) :
  m w = (Returned a, w1) -> bind m k w = k a w1.
Proof. intros E. unfold bind. now rewrite E. Qed.

Lemma bind_Thrown {A B} (m : M A) (k : A -> M B) (w w1 : World) (e : string) :
  m w = (Thrown e, w1) -> bind m k w = (Thrown e, w1).
Proof. intros E. unfold bind. now rewrite E. Qed.

(** A computation that ends in [throw] does not return. *)
Lemma bind_throw_not_Returned {A B} (m : M A) (e : string) (w w' : World)
    (b : B) :
  bind m (fun _ => throw e) w <> (Returned b, w').
Proof. unfold bind, throw. destruct (m w) as [[a|e'] w1]; discriminate. Qed.

Lemma withUsers_same (w : World) : withUsers (users (db w)) w = w.
Proof. destruct w as [[l f] tv lg]. reflexivity. Qed.

(** Without a matching document the update changes nothing. *)
Lemma updateFirst_no_match (q : User.t -> bool) (f : User.t -> User.t)
    (l : list User.t) :
  List.find q l = None -> updateFirst q f l = l.
Proof.
  induction l as [|h r IH]; simpl; [reflexivity|].
  destruct (q h); [discriminate|]. intros E. now rewrite IH.
Qed.

Section MoreServiceProperties.

Context {Sig : Type} `{!EqDecision Sig}.
Variable hs256 : string -> Claims.t -> Sig.
Variable bcrypt_hash : string -> Z -> string.
Variable bcrypt_compare : string -> string -> bool.
Variable env : Env.

(** *** Refresh and logout *)

(** The three facts about [refreshToken]: no write, one failure message,
    and the exact condition of success. *)
Lemma refreshToken_characterised
    (token : Token) (now : Z) (w : World) :
  snd (refreshToken hs256 env token now w) = w
  /\ (forall m, fst (refreshToken hs256 env token now w) = Thrown m ->
                m = invalidRefreshToken)
  /\ (forall r, fst (refreshToken hs256 env token now w) = Returned r
      <-> exists p u,
            verifyRefreshToken hs256 env token now = Returned p
            /\ Claims.tokenVersion p
               = Some (default 0 (tokenVersions w !! Claims.userId p))
            /\ fault (db w) = None
            /\ List.find (hasId (Claims.userId p)) (users (db w)) = Some u
            /\ User.isActive u = true
            /\ r = {| rr_accessToken :=
                        generateAccessToken hs256 env
                          {| ac_userId := User.id u; ac_email := User.email u;
                             ac_role := roleName (User.role u) |} now;
                      rr_expiresIn := getAccessTokenExpiryTime env |}).
Proof.
  unfold refreshToken, tryCatch, bind, liftOutcome, getTokenVersion,
    getUserById, findOne, throw, ret.
  destruct (verifyRefreshToken hs256 env token now) as [p|m0] eqn:V.
  2:{ cbn. split; [reflexivity|]. split; [now intros m [= <-]|].
      intros r. split; [discriminate|]. intros (? & ? & ? & _). discriminate. }
  cbv beta iota.
  destruct (bool_decide (Claims.tokenVersion p
              = Some (default 0 (tokenVersions w !! Claims.userId p)))) eqn:B.
  2:{ cbn. split; [reflexivity|]. split; [now intros m [= <-]|].
      intros r. split; [discriminate|].
      intros (p' & u & [= <-] & Hv & _).
      apply bool_decide_eq_false in B. contradiction. }
  apply bool_decide_eq_true in B. cbn [negb]. cbv beta.
  destruct (fault (db w)) as [msg|] eqn:F.
  { cbn. split; [reflexivity|]. split; [now intros m [= <-]|].
    intros r. split; [discriminate|].
    intros (? & ? & _ & _ & ? & _). discriminate. }
  destruct (List.find (hasId (Claims.userId p)) (users (db w))) as [u|] eqn:Fd.
  2:{ cbn. split; [reflexivity|]. split; [now intros m [= <-]|].
      intros r. split; [discriminate|].
      intros (p' & u & [= <-] & _ & _ & Hu & _). congruence. }
  destruct (User.isActive u) eqn:A; cbn.
  - split; [reflexivity|]. split; [discriminate|].
    intros r. split.
    + intros [= <-]. exists p, u. auto 10.
    + intros (p' & u' & [= <-] & _ & _ & Hu & _ & ->).
      rewrite Fd in Hu. injection Hu as <-. reflexivity.
  - split; [reflexivity|]. split; [now intros m [= <-]|].
    intros r. split; [discriminate|].
    intros (p' & u' & [= <-] & _ & _ & Hu & Ha & _).
    rewrite Fd in Hu. injection Hu as <-. congruence.
Qed.

(** X8. [refreshToken] reads and never writes: whatever the token, the
    store, the generations and the security log are left as they were.
    Every failure, whether of the token, of the generation, of a missing
    or inactive identity or of the store itself, is raised as the one
    message "Invalid refresh token"; and it returns exactly when the
    token verifies, carries the current generation of the identity it
    names, and that identity is stored and active. *)
Theorem X8_refreshToken_reads_only_and_fails_uniformly
    (token : Token) (now : Z) (w : World) :
  snd (refreshToken hs256 env token now w) = w
  /\ (forall m, fst (refreshToken hs256 env token now w) = Thrown m ->
                m = invalidRefreshToken)
  /\ (forall r, fst (refreshToken hs256 env token now w) = Returned r
      <-> exists p u,
            verifyRefreshToken hs256 env token now = Returned p
            /\ Claims.tokenVersion p
               = Some (default 0 (tokenVersions w !! Claims.userId p))
            /\ fault (db w) = None
            /\ List.find (hasId (Claims.userId p)) (users (db w)) = Some u
            /\ User.isActive u = true
            /\ r = {| rr_accessToken :=
                        generateAccessToken hs256 env
                          {| ac_userId := User.id u; ac_email := User.email u;
                             ac_role := roleName (User.role u) |} now;
                      rr_expiresIn := getAccessTokenExpiryTime env |}).
Proof. exact (refreshToken_characterised token now w). Qed.

Lemma verifyRefreshToken_shape (token : Token) (p : Claims.t) (now : Z) :
  verifyRefreshToken hs256 env token now = Returned p ->
  exists s, token = Jws p s.
Proof.
  destruct token as [raw|p' s]; [discriminate|].
  intros V. apply verifyRefreshToken_payload in V as ->. eauto.
Qed.

(** X9. [logout] touches one entry of the generation map and nothing
    else: the store and the security log are as before, every other
    identity keeps its generation, and [refreshToken] answers a token
    that names another identity exactly as before the logout. *)
Theorem X9_logout_affects_one_identity (userId : string) (w : World) :
  let w' := snd (logout userId w) in
  db w' = db w
  /\ securityLog w' = securityLog w
  /\ (forall other, other <> userId ->
        getTokenVersion other w'
        = (Returned (default 0 (tokenVersions w !! other)), w'))
  /\ (forall (p : Claims.t) (s : Sig) (now : Z),
        Claims.userId p <> userId ->
        fst (refreshToken hs256 env (Jws p s) now w')
        = fst (refreshToken hs256 env (Jws p s) now w)).
Proof.
  intros w'. subst w'. rewrite logout_run. cbn [snd db securityLog].
  split; [reflexivity|]. split; [reflexivity|]. split.
  - intros other Hne. unfold getTokenVersion. cbn [tokenVersions].
    now rewrite lookup_insert_ne by congruence.
  - intros p s now Hne.
    unfold refreshToken, tryCatch, bind, liftOutcome, getTokenVersion.
    destruct (verifyRefreshToken hs256 env (Jws p s) now) as [p'|m] eqn:V;
      [|reflexivity].
    apply verifyRefreshToken_payload in V as ->.
    cbv beta iota. cbn [tokenVersions].
    rewrite lookup_insert_ne by congruence.
    destruct (negb (bool_decide _)); [reflexivity|].
    cbv beta. unfold getUserById, findOne, throw, ret. cbn [db].
    destruct (fault (db w)); [reflexivity|].
    destruct (List.find (hasId (Claims.userId p)) (users (db w))) as [u|];
      [|reflexivity].
    destruct (User.isActive u); reflexivity.
Qed.

(** X10. Logging out [n] times raises the generation by exactly [n]; the
    counter only grows, so a refresh token of an earlier generation is
    never accepted again. *)
Theorem X10_logout_counts (userId : string) (n : nat) (w : World) :
  let w' := Nat.iter n (fun v => snd (logout userId v)) w in
  getTokenVersion userId w'
  = (Returned (default 0 (tokenVersions w !! userId) + Z.of_nat n), w')
  /\ (forall (p : Claims.t) (s : Sig) (now : Z),
        (0 < n)%nat ->
        Claims.userId p = userId ->
        Claims.tokenVersion p = Some (default 0 (tokenVersions w !! userId)) ->
        fst (refreshToken hs256 env (Jws p s) now w')
        = Thrown invalidRefreshToken).
Proof.
  intros w'.
  assert (Hv : default 0 (tokenVersions w' !! userId)
               = default 0 (tokenVersions w !! userId) + Z.of_nat n).
  { subst w'. induction n as [|n IH].
    - cbn. lia.
    - rewrite Nat.iter_succ. rewrite logout_run. cbn [snd tokenVersions].
      rewrite lookup_insert_eq. cbn [from_option id]. rewrite IH. lia. }
  split.
  - unfold getTokenVersion. now rewrite Hv.
  - intros p s now Hn Hu Hg.
    pose proof (refreshToken_characterised (Jws p s) now w') as (_ & Hm & Hr).
    destruct (fst (refreshToken hs256 env (Jws p s) now w')) as [r|m] eqn:E.
    + destruct (proj1 (Hr r) eq_refl) as (p' & u & V & Hg' & _).
      apply verifyRefreshToken_payload in V as ->.
      rewrite Hu, Hv, Hg in Hg'. injection Hg' as Hg'. lia.
    + f_equal. exact (Hm m eq_refl).
Qed.

End MoreServiceProperties.

Section LoginProperties.

Context {Sig : Type} `{!EqDecision Sig}.
Variable hs256 : string -> Claims.t -> Sig.
Variable bcrypt_hash : string -> Z -> string.
Variable bcrypt_compare : string -> string -> bool.
Variable env : Env.

(** *** Login *)

Lemma isAccountLocked_false_inv (u : User.t) (now : Z) (w w1 : World) :
  isAccountLocked u now w = (Returned false, w1) -> notLockedAt now u.
Proof.
  unfold isAccountLocked, notLockedAt.
  destruct (User.lockUntil u) as [until|]; [|trivial].
  destruct (now <? until) eqn:L; [discriminate|].
  intros _. apply Z.ltb_ge in L. exact L.
Qed.

(** X11. [login] returns tokens only for valid credentials: whenever it
    returns, the store holds a document with that e-mail address which
    is active, whose digest matches the password, and on which no lock
    is in force at that instant; the response describes that document
    and its access token names it. *)
Theorem X11_login_returns_only_for_valid_credentials
    (credentials : LoginCredentials) (ip userAgent : option string)
    (now : Z) (w w' : World) (resp : AuthResponse) :
  login hs256 bcrypt_compare env credentials ip userAgent now w
  = (Returned resp, w') ->
  exists u : User.t,
    List.find (hasEmail (cred_email credentials)) (users (db w)) = Some u
    /\ User.isActive u = true
    /\ bcrypt_compare (cred_password credentials) (User.password u) = true
    /\ notLockedAt now u
    /\ resp_user resp = userResponse u
    /\ resp_accessToken resp
       = generateAccessToken hs256 env
           {| ac_userId := User.id u; ac_email := User.email u;
              ac_role := roleName (User.role u) |} now.
Proof.
  unfold login. intros H.
  apply bind_Returned_inv in H as (o & w1 & E1 & H).
  unfold getUserByEmail, findOne in E1.
  destruct (fault (db w)); [discriminate|]. injection E1 as <- <-.
  destruct (List.find (hasEmail (cred_email credentials)) (users (db w)))
    as [u|]; [|now apply bind_throw_not_Returned in H].
  apply bind_Returned_inv in H as (isLocked & w2 & E2 & H).
  destruct isLocked; [now apply bind_throw_not_Returned in H|].
  destruct (User.isActive u) eqn:A; cbn [negb] in H;
    [|now apply bind_throw_not_Returned in H].
  destruct (bcrypt_compare (cred_password credentials) (User.password u))
    eqn:P; cbn [negb] in H.
  2:{ apply bind_Returned_inv in H as (? & w3 & _ & H).
      now apply bind_throw_not_Returned in H. }
  apply bind_Returned_inv in H as (? & w3 & _ & H).
  apply bind_Returned_inv in H as (version & w4 & _ & H).
  injection H as <- _.
  exists u. split; [reflexivity|]. split; [exact A|].
  split; [exact P|].
  split; [exact (isAccountLocked_false_inv u now w w2 E2)|].
  split; reflexivity.
Qed.


(** X13. A session, end to end. After a successful login of a stored,
    active identity, in the world the login leaves: the access token of
    the response is accepted by [validateAccessToken] at every instant
    and yields the identity's id, e-mail address and role; the refresh
    token of the response is exchanged by [refreshToken]; and once
    [logout] has run for the identity the same refresh token is refused. *)
Theorem X13_session_after_login
    (w : World) (u : User.t) (pw : string) (ip userAgent : option string)
    (now later : Z) :
  stored w u ->
  notLockedAt now u ->
  User.isActive u = true ->
  bcrypt_compare pw (User.password u) = true ->
  let r := login hs256 bcrypt_compare env
             {| cred_email := User.email u; cred_password := pw |}
             ip userAgent now w in
  let w1 := snd r in
  let claims := {| ac_userId := User.id u; ac_email := User.email u;
                   ac_role := roleName (User.role u) |} in
  exists resp : AuthResponse,
    fst r = Returned resp
    /\ validateAccessToken hs256 env (resp_accessToken resp) later w1
       = (Returned (Some (stampedAccess claims now)), w1)
    /\ refreshToken hs256 env (resp_refreshToken resp) later w1
       = (Returned {| rr_accessToken := generateAccessToken hs256 env claims later;
                      rr_expiresIn := getAccessTokenExpiryTime env |}, w1)
    /\ fst (refreshToken hs256 env (resp_refreshToken resp) later
              (snd (logout (User.id u) w1)))
       = Thrown invalidRefreshToken.
Proof.
  intros Hs Hn Ha Hpw r w1 claims.
  pose proof (login_success hs256 bcrypt_compare env w u pw ip userAgent now
                Hs Hn Ha Hpw) as E.
  fold r in E. subst w1. rewrite E. cbn [fst snd].
  eexists. split; [reflexivity|].
  cbn [resp_accessToken resp_refreshToken].
  destruct (isAccountLocked_notLockedAt w u now Hs Hn) as [_ Hs0].
  pose proof (stored_updated _ _ (successPatch now) now Hs0) as Hs1.
  set (w1 := updated (unlockedWorld w u now) (unlockedDoc now u)
               (successPatch now) now) in *.
  set (u1 := applySet (successPatch now) now (unlockedDoc now u)) in *.
  assert (Hid : User.id u1 = User.id u)
    by (unfold u1, unlockedDoc; now destruct (User.lockUntil u)).
  assert (Hem : User.email u1 = User.email u)
    by (unfold u1, unlockedDoc; now destruct (User.lockUntil u)).
  assert (Hro : User.role u1 = User.role u)
    by (unfold u1, unlockedDoc; now destruct (User.lockUntil u)).
  assert (Hac : User.isActive u1 = true)
    by (unfold u1, unlockedDoc; destruct (User.lockUntil u); exact Ha).
  assert (Htv : tokenVersions w1 = tokenVersions w)
    by (unfold w1, updated, unlockedWorld; now destruct (User.lockUntil u)).
  split; [|split].
  - unfold validateAccessToken, tryCatch, bind, liftOutcome.
    rewrite verifyAccessToken_generateAccessToken.
    cbn [stampedAccess Claims.userId ac_userId claims].
    rewrite <- Hid. rewrite (getUserById_stored w1 u1 Hs1).
    rewrite Hac, Hid. reflexivity.
  - pose proof (refreshToken_current_generation hs256 env w1 u1 now later
                  Hs1 Hac) as R.
    rewrite Htv, Hid, Hem, Hro in R. exact R.
  - pose proof (refreshToken_characterised hs256 env
                  (generateRefreshToken hs256 env
                     {| rc_userId := User.id u;
                        rc_tokenVersion := default 0 (tokenVersions w !! User.id u) |}
                     now) later (snd (logout (User.id u) w1)))
      as (_ & Hm & Hr).
    destruct (fst (refreshToken hs256 env _ later (snd (logout (User.id u) w1))))
      as [r0|m] eqn:E0.
    + destruct (proj1 (Hr r0) eq_refl) as (p & u' & V & Hg & _).
      rewrite verifyRefreshToken_generateRefreshToken in V.
      injection V as <-.
      cbn [stampedRefresh Claims.tokenVersion Claims.userId
           rc_userId rc_tokenVersion] in Hg.
      rewrite logout_run in Hg. cbn [snd tokenVersions] in Hg.
      rewrite lookup_insert_eq, Htv in Hg. cbn [from_option id] in Hg.
      injection Hg as Hg. lia.
    + f_equal. exact (Hm m eq_refl).
Qed.

(** X14. A successful login resets the lockout state in the store:
    [loginAttempts] becomes 0, [lockUntil] is cleared and [lastLoginAt]
    is the instant of the login.  The [user] of the response is the
    document as it was read before that write, so it still shows the
    old counter, lock and last login. *)
Theorem X14_successful_login_resets_lockout
    (w : World) (u : User.t) (pw : string) (ip userAgent : option string)
    (now : Z) :
  stored w u ->
  notLockedAt now u ->
  User.isActive u = true ->
  bcrypt_compare pw (User.password u) = true ->
  let r := login hs256 bcrypt_compare env
             {| cred_email := User.email u; cred_password := pw |}
             ip userAgent now w in
  exists (resp : AuthResponse) (u1 : User.t),
    fst r = Returned resp
    /\ stored (snd r) u1
    /\ User.loginAttempts u1 = 0
    /\ User.lockUntil u1 = None
    /\ User.lastLoginAt u1 = Some now
    /\ User.password u1 = User.password u
    /\ resp_user resp = userResponse u
    /\ UserResponse.loginAttempts (resp_user resp) = User.loginAttempts u
    /\ UserResponse.lastLoginAt (resp_user resp) = User.lastLoginAt u
    /\ securityLog (snd r) = securityLog w.
Proof.
  intros Hs Hn Ha Hpw r.
  pose proof (login_success hs256 bcrypt_compare env w u pw ip userAgent now
                Hs Hn Ha Hpw) as E.
  fold r in E. rewrite E. cbn [fst snd].
  destruct (isAccountLocked_notLockedAt w u now Hs Hn) as [_ Hs0].
  eexists. exists (applySet (successPatch now) now (unlockedDoc now u)).
  split; [reflexivity|].
  split; [exact (stored_updated _ _ (successPatch now) now Hs0)|].
  split; [reflexivity|]. split; [reflexivity|]. split; [reflexivity|].
  split; [unfold unlockedDoc; now destruct (User.lockUntil u)|].
  split; [reflexivity|]. split; [reflexivity|]. split; [reflexivity|].
  unfold updated, unlockedWorld. now destruct (User.lockUntil u).
Qed.

(** X15. Failed password checks add up over any stretch of time: after
    wrong-password logins at the instants [ts], as long as the counter
    stays below 5, the stored counter has grown by the number of
    attempts and no lock is set. *)
Theorem X15_failures_accumulate_below_threshold
    (ts : list Z) (w : World) (u : User.t) (pw : string)
    (ip userAgent : option string) :
  stored w u ->
  User.isActive u = true ->
  User.lockUntil u = None ->
  bcrypt_compare pw (User.password u) = false ->
  User.loginAttempts u + Z.of_nat (List.length ts) < 5 ->
  let w' := fold_left
              (fun v t =>
                 snd (login hs256 bcrypt_compare env
                        {| cred_email := User.email u; cred_password := pw |}
                        ip userAgent t v)) ts w in
  stored w' (afterFailures ts u)
  /\ User.loginAttempts (afterFailures ts u)
     = User.loginAttempts u + Z.of_nat (List.length ts)
  /\ User.lockUntil (afterFailures ts u) = None
  /\ tokenVersions w' = tokenVersions w.
Proof.
  revert w u. induction ts as [|t ts IH]; intros w u Hs Ha Hl Hpw Hlt w'.
  - subst w'. cbn [fold_left afterFailures List.length].
    split; [exact Hs|]. split; [cbn; lia|]. split; [exact Hl | reflexivity].
  - cbn [List.length] in Hlt.
    destruct (failed_attempt_below_threshold hs256 bcrypt_compare env
                w u pw ip userAgent t Hs Hl Ha Hpw ltac:(lia))
      as (_ & S1 & L1 & _).
    specialize (IH _ (afterFailure t u) S1 Ha L1 Hpw
                  ltac:(rewrite afterFailure_counter; lia)).
    cbv zeta in IH. destruct IH as (S & C & L & T).
    subst w'. cbn [fold_left afterFailures].
    change (fold_left (fun v t0 => afterFailure t0 v) ts (afterFailure t u))
      with (afterFailures ts (afterFailure t u)).
    split; [exact S|].
    split; [rewrite C, afterFailure_counter; cbn [List.length]; lia|].
    split; [exact L|].
    etransitivity; [exact T|].
    assert (Hn : notLockedAt t u) by (unfold notLockedAt; now rewrite Hl).
    rewrite (login_wrong_password hs256 bcrypt_compare env w u pw ip userAgent
               t Hs Hn Ha Hpw).
    unfold unlockedWorld, unlockedDoc, failureWorld. rewrite Hl. cbn [snd].
    now destruct (5 <=? User.loginAttempts u + 1).
Qed.

(** X16. One failed password check on an account without a lock locks
    it exactly when the stored counter was already 4 or more: then
    [lockUntil] is set to 30 minutes after the attempt and the
    high-severity event is logged before the attempt's own event;
    otherwise only the counter moves. *)
Theorem X16_failure_locks_from_counter_four
    (w : World) (u : User.t) (pw : string) (ip userAgent : option string)
    (now : Z) :
  stored w u ->
  User.isActive u = true ->
  User.lockUntil u = None ->
  bcrypt_compare pw (User.password u) = false ->
  let r := login hs256 bcrypt_compare env
             {| cred_email := User.email u; cred_password := pw |}
             ip userAgent now w in
  fst r = Thrown invalidCredentials
  /\ stored (snd r) (afterFailure now u)
  /\ User.loginAttempts (afterFailure now u) = User.loginAttempts u + 1
  /\ (4 <= User.loginAttempts u ->
      User.lockUntil (afterFailure now u) = Some (now + lockTime)
      /\ securityLog (snd r)
         = (securityLog w
            ++ [accountLockedEvent (User.id u) (User.loginAttempts u + 1)
                  (now + lockTime);
                invalidPasswordEvent u ip userAgent])%list)
  /\ (User.loginAttempts u < 4 ->
      User.lockUntil (afterFailure now u) = None
      /\ securityLog (snd r)
         = (securityLog w ++ [invalidPasswordEvent u ip userAgent])%list).
Proof.
  intros Hs Ha Hl Hpw r.
  assert (Hn : notLockedAt now u) by (unfold notLockedAt; now rewrite Hl).
  pose proof (login_wrong_password hs256 bcrypt_compare env w u pw ip userAgent
                now Hs Hn Ha Hpw) as E.
  unfold unlockedWorld, unlockedDoc in E. rewrite Hl in E.
  fold r in E. rewrite E. cbn [fst snd].
  split; [reflexivity|].
  split; [apply stored_logged, stored_failureWorld, Hs|].
  split; [reflexivity|]. split; intros Hc.
  - rewrite afterFailure_lock. unfold failureWorld.
    replace (5 <=? User.loginAttempts u + 1) with true
      by (symmetry; apply Z.leb_le; lia).
    split; [reflexivity|].
    unfold logged, updated, withUsers. cbn [securityLog].
    now rewrite <- app_assoc.
  - rewrite afterFailure_lock, Hl. unfold failureWorld.
    replace (5 <=? User.loginAttempts u + 1) with false
      by (symmetry; apply Z.leb_gt; lia).
    split; reflexivity.
Qed.

(** X17. While a lock is in force the password is not looked at: the
    right password is refused like any other, with the account-locked
    message and one medium-severity event; nothing is written to the
    store and no generation changes. *)
Theorem X17_lock_refuses_the_right_password
    (w : World) (u : User.t) (pw : string) (ip userAgent : option string)
    (now until : Z) :
  stored w u ->
  User.lockUntil u = Some until ->
  now < until ->
  bcrypt_compare pw (User.password u) = true ->
  let r := login hs256 bcrypt_compare env
             {| cred_email := User.email u; cred_password := pw |}
             ip userAgent now w in
  fst r = Thrown accountLocked
  /\ db (snd r) = db w
  /\ tokenVersions (snd r) = tokenVersions w
  /\ securityLog (snd r)
     = (securityLog w ++ [lockedAccountEvent u ip userAgent])%list.
Proof.
  intros Hs Hl Hlt _ r.
  pose proof (login_locked hs256 bcrypt_compare env w u pw ip userAgent
                now until Hs Hl Hlt) as E.
  fold r in E. rewrite E. repeat split.
Qed.

End LoginProperties.

(** ** [UserService], continued *)

(** An update that keeps [id] and [email] keeps the identity stored. *)
Lemma stored_updateFirst (w : World) (u : User.t) (f : User.t -> User.t) :
  (forall v, User.id (f v) = User.id v) ->
  (forall v, User.email (f v) = User.email v) ->
  stored w u ->
  stored (withUsers (updateFirst (hasId (User.id u)) f (users (db w))) w) (f u).
Proof.
  intros Hid Hem (Hf & He & Hi). unfold stored. simpl.
  rewrite Hid, Hem. split; [exact Hf|]. split.
  - apply find_updateFirst_both; try assumption.
    unfold hasEmail. rewrite Hem. apply String.eqb_refl.
  - apply find_updateFirst_both; try assumption.
    unfold hasId. rewrite Hid. apply String.eqb_refl.
Qed.

Section MoreUserServiceProperties.

Context {Sig : Type} `{!EqDecision Sig}.
Variable hs256 : string -> Claims.t -> Sig.
Variable bcrypt_hash : string -> Z -> string.
Variable bcrypt_compare : string -> string -> bool.
Variable env : Env.

(** X18. An id that no document carries makes every write a no-op:
    [updateUser] and [updateProfile] return no document,
    [incrementLoginAttempts] and [resetLoginAttempts] return, and
    [changePassword] returns false; the world is left exactly as it
    was, with no event logged. *)
Theorem X18_unknown_id_writes_nothing
    (w : World) (id p1 p2 : string) (patch : UserPatch)
    (request : UpdateProfileRequest) (now : Z) :
  fault (db w) = None ->
  List.find (hasId id) (users (db w)) = None ->
  updateUser id patch now w = (Returned None, w)
  /\ updateProfile id request now w = (Returned None, w)
  /\ incrementLoginAttempts id now w = (Returned tt, w)
  /\ resetLoginAttempts id now w = (Returned tt, w)
  /\ changePassword bcrypt_hash bcrypt_compare id p1 p2 now w
     = (Returned false, w).
Proof.
  intros F N.
  assert (U : forall f, findOneAndUpdate (hasId id) f w = (Returned None, w)).
  { intros f. unfold findOneAndUpdate. rewrite F, N.
    rewrite (updateFirst_no_match _ _ _ N). now rewrite withUsers_same. }
  assert (G : getUserById id w = (Returned None, w))
    by (unfold getUserById, findOne; now rewrite F, N).
  split; [apply U|]. split.
  - unfold updateProfile. destruct (up_preferences request) as [q|].
    + erewrite bind_Returned
        by (erewrite bind_Returned by exact G; reflexivity).
      apply U.
    + unfold bind, ret. apply U.
  - split; [unfold incrementLoginAttempts; now rewrite (bind_Returned _ _ _ _ _ G)|].
    split; [unfold resetLoginAttempts, updateUser;
            now rewrite (bind_Returned _ _ _ _ _ (U _))|].
    unfold changePassword. now rewrite (bind_Returned _ _ _ _ _ G).
Qed.

(** X19. [changePassword] returns true exactly when the store answers,
    the id names a document, and the current password matches its
    digest; when it returns false nothing has been written. *)
Theorem X19_changePassword_outcomes
    (w : World) (id currentPassword newPassword : string) (now : Z) :
  (fst (changePassword bcrypt_hash bcrypt_compare id currentPassword
          newPassword now w) = Returned true
   <-> fault (db w) = None
       /\ exists u, List.find (hasId id) (users (db w)) = Some u
                    /\ bcrypt_compare currentPassword (User.password u) = true)
  /\ (fst (changePassword bcrypt_hash bcrypt_compare id currentPassword
             newPassword now w) = Returned false ->
      snd (changePassword bcrypt_hash bcrypt_compare id currentPassword
             newPassword now w) = w).
Proof.
  unfold changePassword, bind, getUserById, updateUser, findOne,
    findOneAndUpdate, ret.
  destruct (fault (db w)) as [m|] eqn:F.
  { cbn. split; [|discriminate]. split; [discriminate|]. intros [? _].
    discriminate. }
  destruct (List.find (hasId id) (users (db w))) as [u|] eqn:Fd.
  2:{ cbn. split; [|reflexivity]. split; [discriminate|].
      intros (_ & u & ? & _). discriminate. }
  destruct (bcrypt_compare currentPassword (User.password u)) eqn:P;
    cbn [negb].
  - rewrite F. cbn. split; [|discriminate]. split; [eauto|reflexivity].
  - cbn. split; [|reflexivity]. split; [discriminate|].
    intros (_ & u' & [= <-] & P'). congruence.
Qed.

(** X20. Let an identity be held in the store and active, and let no
    lock on it be in force at the instant of a later login.  After a
    successful [changePassword] for it, provided the digest of the new
    password matches the new password and not the old one: the store
    holds the identity with the new digest; a login with its address and
    the new password returns tokens; a login with the old password is
    refused with "Invalid email or password" and counted as a failed
    attempt. *)
Theorem X20_login_after_changePassword
    (w w' : World) (u : User.t) (oldPassword newPassword : string)
    (ip userAgent : option string) (now later : Z) :
  stored w u ->
  User.isActive u = true ->
  notLockedAt later u ->
  bcrypt_compare newPassword (bcrypt_hash newPassword 12) = true ->
  bcrypt_compare oldPassword (bcrypt_hash newPassword 12) = false ->
  changePassword bcrypt_hash bcrypt_compare (User.id u) oldPassword
    newPassword now w = (Returned true, w') ->
  let u' := withPassword (bcrypt_hash newPassword 12) now u in
  stored w' u'
  /\ (exists resp,
        fst (login hs256 bcrypt_compare env
               {| cred_email := User.email u; cred_password := newPassword |}
               ip userAgent later w') = Returned resp)
  /\ fst (login hs256 bcrypt_compare env
            {| cred_email := User.email u; cred_password := oldPassword |}
            ip userAgent later w') = Thrown invalidCredentials
  /\ stored
       (snd (login hs256 bcrypt_compare env
               {| cred_email := User.email u; cred_password := oldPassword |}
               ip userAgent later w'))
       (afterFailure later (unlockedDoc later u')).
Proof.
  intros Hs Ha Hn Hnew Hold Hrun u'.
  assert (Hw : w' = updated w u
                      {| set_password := Some (bcrypt_hash newPassword 12);
                         set_loginAttempts := None; set_lockUntil := None;
                         set_lastLoginAt := None |} now).
  { revert Hrun. unfold changePassword.
    rewrite (bind_Returned _ _ _ _ _ (getUserById_stored w u Hs)).
    destruct (negb (bcrypt_compare oldPassword (User.password u)));
      [discriminate|].
    rewrite (bind_Returned _ _ _ _ _ (updateUser_stored w u _ now Hs)).
    now intros [= <-]. }
  assert (Hs' : stored w' u') by (subst w'; now apply stored_updated).
  assert (Hn' : notLockedAt later u') by exact Hn.
  assert (Ha' : User.isActive u' = true) by exact Ha.
  pose proof (login_success hs256 bcrypt_compare env w' u' newPassword
                ip userAgent later Hs' Hn' Ha' Hnew) as Eok.
  pose proof (login_wrong_password hs256 bcrypt_compare env w' u' oldPassword
                ip userAgent later Hs' Hn' Ha' Hold) as Eko.
  change (User.email u') with (User.email u) in Eok, Eko.
  split; [exact Hs'|]. split; [|split].
  - eexists. rewrite Eok. reflexivity.
  - now rewrite Eko.
  - rewrite Eko. cbn [snd]. apply stored_logged, stored_failureWorld.
    now apply isAccountLocked_notLockedAt.
Qed.

(** X21. [updateProfile] on a stored identity rewrites the first and
    last name only when a non-empty one is given, merges the given
    preference keys over the stored preferences, and stamps
    [updatedAt]; the e-mail address, username, digest, role, activity
    flag and lockout state of the document, the generations and the
    security log are untouched. *)
Theorem X21_updateProfile_touches_profile_only
    (w : World) (u : User.t) (request : UpdateProfileRequest) (now : Z) :
  stored w u ->
  let r := updateProfile (User.id u) request now w in
  exists u' : User.t,
    fst r = Returned (Some u')
    /\ stored (snd r) u'
    /\ User.firstName u'
       = match up_firstName request with
         | Some s => if decide (s = "") then User.firstName u else s
         | None => User.firstName u
         end
    /\ User.lastName u'
       = match up_lastName request with
         | Some s => if decide (s = "") then User.lastName u else s
         | None => User.lastName u
         end
    /\ User.preferences u'
       = match up_preferences request with
         | Some q => mergePreferences (User.preferences u) q
         | None => User.preferences u
         end
    /\ User.updatedAt u' = now
    /\ (User.id u' = User.id u /\ User.email u' = User.email u
        /\ User.username u' = User.username u
        /\ User.password u' = User.password u
        /\ User.role u' = User.role u
        /\ User.isActive u' = User.isActive u
        /\ User.loginAttempts u' = User.loginAttempts u
        /\ User.lockUntil u' = User.lockUntil u
        /\ User.lastLoginAt u' = User.lastLoginAt u)
    /\ tokenVersions (snd r) = tokenVersions w
    /\ securityLog (snd r) = securityLog w.
Proof.
  intros Hs r.
  set (patch := {| set_firstName := truthy (up_firstName request);
                   set_lastName := truthy (up_lastName request);
                   set_preferences :=
                     match up_preferences request with
                     | Some q => Some (mergePreferences (User.preferences u) q)
                     | None => None
                     end |}).
  assert (E : r = (Returned (Some (applyProfileSet patch now u)),
                   withUsers (updateFirst (hasId (User.id u))
                                (applyProfileSet patch now) (users (db w))) w)).
  { subst r. unfold updateProfile.
    destruct Hs as (Hf & _ & Hi).
    assert (U : forall f, findOneAndUpdate (hasId (User.id u)) f w
                          = (Returned (Some (f u)),
                             withUsers (updateFirst (hasId (User.id u)) f
                                          (users (db w))) w))
      by (intros f; unfold findOneAndUpdate; now rewrite Hf, Hi).
    destruct (up_preferences request) as [q|] eqn:Q.
    - erewrite bind_Returned.
      2:{ erewrite bind_Returned; [reflexivity|].
          unfold getUserById, findOne. now rewrite Hf, Hi. }
      subst patch. try rewrite Q. apply U.
    - unfold bind at 1, ret. subst patch. try rewrite Q. apply U. }
  exists (applyProfileSet patch now u). rewrite E. cbn [fst snd].
  split; [reflexivity|].
  split; [now apply stored_updateFirst|].
  split; [subst patch; cbn; destruct (up_firstName request) as [s|];
          [cbn; destruct (decide (s = "")); reflexivity | reflexivity]|].
  split; [subst patch; cbn; destruct (up_lastName request) as [s|];
          [cbn; destruct (decide (s = "")); reflexivity | reflexivity]|].
  split; [subst patch; cbn; now destruct (up_preferences request)|].
  split; [reflexivity|]. split; [repeat split|]. split; reflexivity.
Qed.

End MoreUserServiceProperties.

(** Alice changes her password, then logs in with the new and with the
    old one. *)
Lemma X20_login_after_changePassword_witness :
  let w' := snd (changePassword toy_hash toy_compare "u-alice"
                   "Correct#Horse1" "N3w!Passphrase" 7000 sampleWorld) in
  (exists resp,
     fst (login ideal_hs256 toy_compare env_default
            {| cred_email := "alice@x.com"; cred_password := "N3w!Passphrase" |}
            None None 8000 w') = Returned resp)
  /\ fst (login ideal_hs256 toy_compare env_default
            {| cred_email := "alice@x.com"; cred_password := "Correct#Horse1" |}
            None None 8000 w') = Thrown invalidCredentials.
Proof.
  destruct (X20_login_after_changePassword ideal_hs256 toy_hash toy_compare
              env_default sampleWorld
              (snd (changePassword toy_hash toy_compare "u-alice"
                      "Correct#Horse1" "N3w!Passphrase" 7000 sampleWorld))
              alice "Correct#Horse1" "N3w!Passphrase" None None 7000 8000
              stored_sample_alice eq_refl I eq_refl eq_refl eq_refl)
    as (_ & Hnew & Hold & _).
  split; [exact Hnew | exact Hold].
Defined.

(** ** Registration *)

Lemma NoDup_snoc {A} (l : list A) (a : A) :
  NoDup l -> ~ In a l -> NoDup (l ++ [a]).
Proof.
  induction 1 as [|x l Hx Hl IH]; intros Ha; simpl.
  - constructor; [rewrite list_elem_of_In; simpl; tauto | constructor].
  - constructor.
    + rewrite list_elem_of_In in *. intros Hin. apply in_app_or in Hin.
      simpl in *. intuition congruence.
    + apply IH. simpl in Ha. tauto.
Qed.

Lemma find_none_snoc (q : User.t -> bool) (l : list User.t) (u : User.t) :
  List.find q l = None -> q u = true -> List.find q (l ++ [u]) = Some u.
Proof.
  induction l as [|h r IH]; simpl; intros N Q; [now rewrite Q|].
  destruct (q h); [discriminate | auto].
Qed.

Lemma existsb_clashes_false (u : User.t) (l : list User.t) :
  existsb (clashes u) l = false ->
  forall v, In v l ->
    User.id v <> User.id u /\ User.email v <> User.email u
    /\ User.username v <> User.username u.
Proof.
  intros E v Hv.
  assert (C : clashes u v = false).
  { destruct (clashes u v) eqn:C; [|reflexivity].
    assert (existsb (clashes u) l = true)
      by (apply existsb_exists; eauto).
    congruence. }
  unfold clashes in C. apply orb_false_iff in C as [C C3].
  apply orb_false_iff in C as [C1 C2].
  apply String.eqb_neq in C1, C2, C3. auto.
Qed.

Section RegistrationProperties.

Context {Sig : Type} `{!EqDecision Sig}.
Variable hs256 : string -> Claims.t -> Sig.
Variable bcrypt_hash : string -> Z -> string.
Variable bcrypt_compare : string -> string -> bool.
Variable env : Env.
Variable isEmail : string -> bool.
Variable zodMessage : User.t -> string.
Variable duplicateKeyMessage : User.t -> string.

(** Every way [createUser] can end: it either leaves the world as it was,
    or returns the new document after appending it to a collection in
    which nothing clashes with it. *)
Lemma createUser_cases (userData : CreateUser) (uuid verificationToken : string)
    (now : Z) (w : World) :
  let user := newUser userData uuid verificationToken
                (bcrypt_hash (cu_password userData) 12) now in
  snd (createUser bcrypt_hash isEmail zodMessage duplicateKeyMessage
         userData uuid verificationToken now w) = w
  /\ (forall v, fst (createUser bcrypt_hash isEmail zodMessage
                       duplicateKeyMessage userData uuid verificationToken
                       now w) <> Returned v)
  \/ (fault (db w) = None
      /\ List.find (hasEmailOrUsername (cu_email userData) (cu_username userData))
           (users (db w)) = None
      /\ satisfiesUserSchema isEmail user = true
      /\ existsb (clashes user) (users (db w)) = false
      /\ createUser bcrypt_hash isEmail zodMessage duplicateKeyMessage
           userData uuid verificationToken now w
         = (Returned user, withUsers (users (db w) ++ [user])%list w)).
Proof.
  intros user. unfold newUser in user.
  unfold createUser, bind, findOne, liftOutcome, UserSchema_parse,
    insertOne, throw, ret. cbv zeta.
  destruct (fault (db w)) as [m|] eqn:F; [left; split; [reflexivity|discriminate]|].
  destruct (List.find _ (users (db w))) as [v|] eqn:Fd.
  - destruct (String.eqb (User.email v) (cu_email userData)) eqn:Em;
      [left; split; [reflexivity|discriminate]|].
    destruct (String.eqb (User.username v) (cu_username userData)) eqn:Un;
      [left; split; [reflexivity|discriminate]|].
    exfalso. apply find_some in Fd as [_ Q]. unfold hasEmailOrUsername in Q.
    rewrite Em, Un in Q. discriminate.
  - fold user.
    destruct (satisfiesUserSchema isEmail user) eqn:V;
      [|left; split; [reflexivity|discriminate]].
    rewrite F.
    destruct (existsb (clashes user) (users (db w))) eqn:C;
      [left; split; [reflexivity|discriminate]|].
    right. auto.
Qed.

(** X22. [createUser] refuses an e-mail address or username already in
    the collection before it hashes or writes anything: the error is
    the e-mail message when the first document matching either key has
    that address, the username message otherwise, and the world is left
    as it was. *)
Theorem X22_createUser_rejects_taken_keys
    (userData : CreateUser) (uuid verificationToken : string) (now : Z)
    (w : World) (v : User.t) :
  fault (db w) = None ->
  List.find (hasEmailOrUsername (cu_email userData) (cu_username userData))
    (users (db w)) = Some v ->
  createUser bcrypt_hash isEmail zodMessage duplicateKeyMessage
    userData uuid verificationToken now w
  = (Thrown (if String.eqb (User.email v) (cu_email userData)
             then emailTaken else usernameTaken), w).
Proof.
  intros F Fd. unfold createUser, bind, findOne, throw. rewrite F, Fd.
  destruct (String.eqb (User.email v) (cu_email userData)) eqn:Em;
    [reflexivity|].
  apply find_some in Fd as [_ Q]. unfold hasEmailOrUsername in Q.
  rewrite Em in Q. cbn [orb] in Q. now rewrite Q.
Qed.

(** X23. [createUser] keeps the keys unique: if no two documents share an
    id, an e-mail address or a username before the call, none do after
    it, however the call ends. *)
Theorem X23_createUser_keeps_keys_unique
    (userData : CreateUser) (uuid verificationToken : string) (now : Z)
    (w : World) :
  uniqueKeys (users (db w)) ->
  uniqueKeys
    (users (db (snd (createUser bcrypt_hash isEmail zodMessage
                       duplicateKeyMessage userData uuid verificationToken
                       now w)))).
Proof.
  intros (Hi & He & Hn).
  destruct (createUser_cases userData uuid verificationToken now w)
    as [[-> _] | (_ & _ & _ & C & ->)]; [now repeat split|].
  cbn [snd withUsers db users].
  pose proof (existsb_clashes_false _ _ C) as Hc.
  unfold uniqueKeys. rewrite !map_app. cbn [map].
  repeat split; apply NoDup_snoc; try assumption;
    intros Hin; apply in_map_iff in Hin as (x & Hx & Hin);
    destruct (Hc x Hin) as (? & ? & ?); congruence.
Qed.

(** X24. Registration, end to end. For a request whose e-mail address
    and username are free, that satisfies the schema, and with an id
    that clashes with no document: [register] returns; the new document
    is stored with role [user], active, with counter 0, no lock and the
    digest of the password; the access token of the response is accepted
    by [validateAccessToken] and its refresh token by [refreshToken];
    and, the digest matching the password, a login with the registered
    credentials returns tokens. *)
Theorem X24_register_then_session
    (userData : CreateUser) (uuid verificationToken : string)
    (ip userAgent : option string) (now later : Z) (w : World) :
  let user := newUser userData uuid verificationToken
                (bcrypt_hash (cu_password userData) 12) now in
  fault (db w) = None ->
  List.find (hasEmailOrUsername (cu_email userData) (cu_username userData))
    (users (db w)) = None ->
  satisfiesUserSchema isEmail user = true ->
  existsb (clashes user) (users (db w)) = false ->
  bcrypt_compare (cu_password userData)
    (bcrypt_hash (cu_password userData) 12) = true ->
  let r := register hs256 bcrypt_hash env isEmail zodMessage
             duplicateKeyMessage userData uuid verificationToken now w in
  let w' := snd r in
  exists resp : AuthResponse,
    fst r = Returned resp
    /\ resp_user resp = userResponse user
    /\ stored w' user
    /\ users (db w') = (users (db w) ++ [user])%list
    /\ validateAccessToken hs256 env (resp_accessToken resp) later w'
       = (Returned
            (Some (stampedAccess
                     {| ac_userId := uuid; ac_email := cu_email userData;
                        ac_role := "user" |} now)), w')
    /\ (exists fresh,
          fst (refreshToken hs256 env (resp_refreshToken resp) later w')
          = Returned fresh)
    /\ (exists again,
          fst (login hs256 bcrypt_compare env
                 {| cred_email := cu_email userData;
                    cred_password := cu_password userData |}
                 ip userAgent later w') = Returned again).
Proof.
  intros user F Fd V C Hpw r w'. unfold newUser in user.
  destruct (createUser_cases userData uuid verificationToken now w)
    as [[_ Hno] | (_ & _ & _ & _ & E)].
  { exfalso. revert Hno. unfold createUser, bind, findOne, liftOutcome,
      UserSchema_parse, insertOne, ret.
    cbv zeta. rewrite F, Fd. fold user. rewrite V, F, C. intros Hno.
    now apply (Hno user). }
  fold user in E.
  assert (Er : r = (Returned
                      {| resp_user := userResponse user;
                         resp_accessToken :=
                           generateAccessToken hs256 env
                             {| ac_userId := uuid; ac_email := cu_email userData;
                                ac_role := "user" |} now;
                         resp_refreshToken :=
                           generateRefreshToken hs256 env
                             {| rc_userId := uuid;
                                rc_tokenVersion :=
                                  default 0 (tokenVersions w !! uuid) |} now;
                         resp_expiresIn := getAccessTokenExpiryTime env |},
                    withUsers (users (db w) ++ [user])%list w)).
  { subst r. unfold register. rewrite (bind_Returned _ _ _ _ _ E).
    reflexivity. }
  subst w'. rewrite Er. cbn [fst snd].
  set (w' := withUsers (users (db w) ++ [user])%list w).
  assert (Hs : stored w' user).
  { unfold stored, w'. cbn [db users fault withUsers].
    split; [exact F|]. split.
    - apply find_none_snoc; [|apply String.eqb_refl].
      destruct (List.find (hasEmail (User.email user)) (users (db w)))
        as [x|] eqn:Fx; [|reflexivity].
      apply find_some in Fx as [Hin Q].
      pose proof (find_none _ _ Fd x Hin) as N.
      unfold hasEmailOrUsername in N. unfold hasEmail in Q.
      cbn [User.email user newUser] in Q. rewrite Q in N. discriminate.
    - apply find_none_snoc; [|apply String.eqb_refl].
      destruct (List.find (hasId (User.id user)) (users (db w)))
        as [x|] eqn:Fx; [|reflexivity].
      apply find_some in Fx as [Hin Q].
      destruct (existsb_clashes_false _ _ C x Hin) as (Hne & _).
      unfold hasId in Q. apply String.eqb_eq in Q. contradiction. }
  eexists. split; [reflexivity|].
  cbn [resp_user resp_accessToken resp_refreshToken].
  split; [reflexivity|]. split; [exact Hs|]. split; [reflexivity|].
  split; [|split].
  - unfold validateAccessToken, tryCatch, bind, liftOutcome.
    rewrite verifyAccessToken_generateAccessToken.
    cbn [stampedAccess Claims.userId ac_userId].
    change uuid with (User.id user) at 1.
    rewrite (getUserById_stored w' user Hs). reflexivity.
  - eexists.
    pose proof (refreshToken_current_generation hs256 env w' user now later
                  Hs eq_refl) as R.
    cbn [User.id user newUser] in R.
    change (tokenVersions w') with (tokenVersions w) in R.
    rewrite R. reflexivity.
  - eexists.
    pose proof (login_success hs256 bcrypt_compare env w' user
                  (cu_password userData) ip userAgent later Hs I eq_refl Hpw)
      as L.
    cbn [User.email user newUser] in L. rewrite L. reflexivity.
Qed.

End RegistrationProperties.

(** Alice's address is taken; so is Bob's username under a new address. *)
Lemma X22_createUser_rejects_taken_keys_witness :
  fst (createUser toy_hash toy_isEmail toy_zodMessage toy_duplicateKeyMessage
         {| cu_email := "alice@x.com"; cu_username := "alice2";
            cu_password := "Correct#Horse1"; cu_firstName := "A";
            cu_lastName := "B" |} "u-new" "tok" 100 sampleWorld)
  = Thrown emailTaken
  /\ fst (createUser toy_hash toy_isEmail toy_zodMessage toy_duplicateKeyMessage
            {| cu_email := "bobby@x.com"; cu_username := "bob";
               cu_password := "Correct#Horse1"; cu_firstName := "A";
               cu_lastName := "B" |} "u-new" "tok" 100 sampleWorld)
     = Thrown usernameTaken.
Proof.
  split.
  - now rewrite (X22_createUser_rejects_taken_keys toy_hash toy_isEmail
                   toy_zodMessage toy_duplicateKeyMessage
                   {| cu_email := "alice@x.com"; cu_username := "alice2";
                      cu_password := "Correct#Horse1"; cu_firstName := "A";
                      cu_lastName := "B" |} "u-new" "tok" 100
                   sampleWorld alice eq_refl eq_refl).
  - now rewrite (X22_createUser_rejects_taken_keys toy_hash toy_isEmail
                   toy_zodMessage toy_duplicateKeyMessage
                   {| cu_email := "bobby@x.com"; cu_username := "bob";
                      cu_password := "Correct#Horse1"; cu_firstName := "A";
                      cu_lastName := "B" |} "u-new" "tok" 100
                   sampleWorld bob eq_refl eq_refl).
Defined.

Lemma uniqueKeys_sample : uniqueKeys (users (db sampleWorld)).
Proof.
  repeat split; cbn; repeat (constructor; [rewrite list_elem_of_In; cbn; intuition discriminate|]); constructor.
Qed.

(** Registering Dave in the sample collection keeps the keys unique. *)
Lemma X23_createUser_keeps_keys_unique_witness :
  uniqueKeys
    (users (db (snd (createUser toy_hash toy_isEmail toy_zodMessage
                       toy_duplicateKeyMessage daveData "u-dave" "tok" 100
                       sampleWorld)))).
Proof.
  exact (X23_createUser_keeps_keys_unique toy_hash toy_isEmail toy_zodMessage
           toy_duplicateKeyMessage daveData "u-dave" "tok" 100 sampleWorld
           uniqueKeys_sample).
Defined.

(** Dave registers and logs in. *)
Lemma X24_register_then_session_witness :
  let w' := snd (register ideal_hs256 toy_hash env_default toy_isEmail
                   toy_zodMessage toy_duplicateKeyMessage daveData
                   "u-dave" "tok" 100 sampleWorld) in
  exists again,
    fst (login ideal_hs256 toy_compare env_default
           {| cred_email := "dave@x.com"; cred_password := "Correct#Horse1" |}
           None None 200 w') = Returned again.
Proof.
  destruct (X24_register_then_session ideal_hs256 toy_hash toy_compare
              env_default toy_isEmail toy_zodMessage toy_duplicateKeyMessage
              daveData "u-dave" "tok" None None 100 200 sampleWorld
              eq_refl eq_refl eq_refl eq_refl eq_refl)
    as (resp & _ & _ & _ & _ & _ & _ & L).
  exact L.
Defined.

(** ** The [authenticate] decorator *)

Lemma extractTokenFromHeader_Some (h : option string) (t : string) :
  extractTokenFromHeader h = Some t
  <-> h = Some ("Bearer " ++ t) /\ noSpace t.
Proof.
  destruct h as [h|]; [|split; [discriminate | intros [? _]; discriminate]].
  rewrite extractTokenFromHeader_parts. split.
  - destruct (splitOn " " h) as [|a [|b [|c l]]] eqn:E; try discriminate.
    destruct (decide (a = "Bearer")) as [->|]; [|discriminate].
    intros [= ->]. apply splitOn_two in E as (-> & _ & Hb). auto.
  - intros ([= ->] & Ht).
    assert (splitOn " " ("Bearer " ++ t) = ["Bearer"; t]) as ->.
    { apply splitOn_two. split; [reflexivity|].
      split; [apply noSpace_Bearer | exact Ht]. }
    reflexivity.
Qed.

Lemma append_cancel_l (s a b : string) : s ++ a = s ++ b -> a = b.
Proof.
  induction s as [|c s IH]; [exact (fun H => H)|].
  change (String c (s ++ a) = String c (s ++ b) -> a = b).
  intros [= H]. auto.
Qed.

Lemma truthy_Some (s : option string) (t : string) :
  truthy s = Some t <-> s = Some t /\ t <> "".
Proof.
  unfold truthy. destruct s as [v|]; [|split; [discriminate | intros [? _]; discriminate]].
  destruct (decide (v = "")) as [->|Hne]; split.
  - discriminate.
  - intros [[= <-] Hne]. congruence.
  - intros [= <-]. auto.
  - intros [[= <-] _]. reflexivity.
Qed.

Section TransportProperties.

Context {Sig : Type} `{!EqDecision Sig}.
Variable hs256 : string -> Claims.t -> Sig.
Variable env : Env.
Variable decodeJws : string -> @Token Sig.

Lemma validateAccessToken_total (token : Token) (now : Z) (w : World) :
  exists o, validateAccessToken hs256 env token now w = (Returned o, w).
Proof.
  unfold validateAccessToken, tryCatch, bind, liftOutcome, getUserById,
    findOne, ret.
  destruct (verifyAccessToken hs256 env token now) as [p|m]; [|eauto].
  destruct (fault (db w)); [eauto|].
  destruct (List.find _ (users (db w))) as [u|]; [|eauto].
  destruct (User.isActive u); eauto.
Qed.

(** X25. The [authenticate] pre-handler never raises and never reaches
    its "Authentication failed" answer.  It lets the request continue
    exactly when the [Authorization] header is [Bearer], one space and a
    non-empty token without a space that [validateAccessToken] accepts,
    and then attaches the token's [userId], [email] and [role] and logs
    nothing; in every other case it answers 401 and logs exactly one
    security event.  It never writes to the store or to the
    generations. *)
Theorem X25_authenticate_outcomes (request : Request) (now : Z) (w : World) :
  let r := authenticate hs256 env decodeJws request now w in
  (exists out, fst r = Returned out)
  /\ db (snd r) = db w
  /\ tokenVersions (snd r) = tokenVersions w
  /\ (forall request',
        fst r = Returned (Continued request')
        <-> exists t p,
              req_authorization request = Some ("Bearer " ++ t)
              /\ noSpace t /\ t <> ""
              /\ validateAccessToken hs256 env (decodeJws t) now w
                 = (Returned (Some p), w)
              /\ request'
                 = attachUser request
                     {| ru_userId := Claims.userId p;
                        ru_email := Claims.email p;
                        ru_role := Claims.role p |})
  /\ (forall request',
        fst r = Returned (Continued request') ->
        securityLog (snd r) = securityLog w)
  /\ (forall reply,
        fst r = Returned (Replied reply) ->
        statusCode reply = 401
        /\ rp_code reply <> "AUTH_FAILED"
        /\ exists e, securityLog (snd r) = (securityLog w ++ [e])%list).
Proof.
  intros r. subst r. unfold authenticate, tryCatch.
  destruct (truthy (extractTokenFromHeader (req_authorization request)))
    as [t|] eqn:T.
  - apply truthy_Some in T as [T Hne].
    apply extractTokenFromHeader_Some in T as [Hh Hns].
    destruct (validateAccessToken_total (decodeJws t) now w) as [o Ho].
    rewrite (bind_Returned _ _ _ _ _ Ho).
    destruct o as [p|]; cbn.
    + split; [eauto|]. split; [reflexivity|]. split; [reflexivity|].
      split; [|split; [reflexivity | discriminate]].
      intros request'. split.
      * intros [= <-]. exists t, p. auto.
      * intros (t' & p' & Hh' & _ & _ & Hv & ->).
        rewrite Hh in Hh'. injection Hh' as Hh'.
        apply append_cancel_l in Hh' as <-.
        rewrite Ho in Hv. injection Hv as <-. reflexivity.
    + split; [eauto|]. split; [reflexivity|]. split; [reflexivity|].
      split; [|split; [discriminate|]].
      * intros request'. split; [discriminate|].
        intros (t' & p' & Hh' & _ & _ & Hv & _).
        rewrite Hh in Hh'. injection Hh' as Hh'.
        apply append_cancel_l in Hh' as <-.
        rewrite Ho in Hv. discriminate.
      * intros reply [= <-]. cbn. split; [reflexivity|].
        split; [discriminate | eauto].
  - cbn. split; [eauto|]. split; [reflexivity|]. split; [reflexivity|].
    split; [|split; [discriminate|]].
    + intros request'. split; [discriminate|].
      intros (t' & p' & Hh' & Hns & Hne & _).
      assert (truthy (extractTokenFromHeader (req_authorization request))
              = Some t') as T'.
      { apply truthy_Some. split; [|exact Hne].
        apply extractTokenFromHeader_Some. auto. }
      congruence.
    + intros reply [= <-]. cbn. split; [reflexivity|].
      split; [discriminate | eauto].
Qed.

End TransportProperties.

(** ** Closed instances of the further properties *)

Lemma stored_erin : stored erinWorld erin.
Proof. split; [reflexivity | split; reflexivity]. Qed.

(** Alice logs in with her password. *)
Lemma X11_login_returns_only_for_valid_credentials_witness :
  exists u : User.t,
    List.find (hasEmail "alice@x.com") (users (db sampleWorld)) = Some u
    /\ User.isActive u = true
    /\ toy_compare "Correct#Horse1" (User.password u) = true
    /\ notLockedAt 1000 u.
Proof.
  destruct (X11_login_returns_only_for_valid_credentials
              ideal_hs256 toy_compare env_default
              (aliceLogin "Correct#Horse1") None None 1000 sampleWorld
              (snd (login ideal_hs256 toy_compare env_default
                      (aliceLogin "Correct#Horse1") None None 1000 sampleWorld))
              {| resp_user := userResponse alice;
                 resp_accessToken :=
                   generateAccessToken ideal_hs256 env_default aliceClaims 1000;
                 resp_refreshToken :=
                   generateRefreshToken ideal_hs256 env_default
                     {| rc_userId := "u-alice"; rc_tokenVersion := 0 |} 1000;
                 resp_expiresIn := Some 900 |}
              eq_refl)
    as (u & Hf & Ha & Hp & Hn & _).
  exists u. auto.
Defined.


(** Alice's session: validated and refreshed an hour later, refused
    after logout. *)
Lemma X13_session_after_login_witness :
  let r := login ideal_hs256 toy_compare env_default
             (aliceLogin "Correct#Horse1") None None 1000 sampleWorld in
  exists resp,
    fst r = Returned resp
    /\ validateAccessToken ideal_hs256 env_default (resp_accessToken resp)
         3601000 (snd r)
       = (Returned (Some (stampedAccess aliceClaims 1000)), snd r)
    /\ fst (refreshToken ideal_hs256 env_default (resp_refreshToken resp)
              3601000 (snd (logout "u-alice" (snd r))))
       = Thrown invalidRefreshToken.
Proof.
  destruct (X13_session_after_login ideal_hs256 toy_compare env_default
              sampleWorld alice "Correct#Horse1" None None 1000 3601000
              stored_sample_alice I eq_refl eq_refl)
    as (resp & R & V & _ & L).
  exists resp. split; [exact R|]. split; [exact V | exact L].
Defined.

(** Erin, four failures on record, logs in with her password. *)
Lemma X14_successful_login_resets_lockout_witness :
  let r := login ideal_hs256 toy_compare env_default
             {| cred_email := "erin@x.com"; cred_password := "Correct#Horse1" |}
             None None 1000 erinWorld in
  exists resp u1,
    fst r = Returned resp
    /\ stored (snd r) u1
    /\ User.loginAttempts u1 = 0
    /\ UserResponse.loginAttempts (resp_user resp) = 4.
Proof.
  destruct (X14_successful_login_resets_lockout ideal_hs256 toy_compare
              env_default erinWorld erin "Correct#Horse1" None None 1000
              stored_erin I eq_refl eq_refl)
    as (resp & u1 & R & S & C & _ & _ & _ & _ & C' & _).
  exists resp, u1. auto.
Defined.

(** Alice, three wrong passwords a day apart. *)
Lemma X15_failures_accumulate_witness :
  User.loginAttempts (afterFailures [1000; 86401000; 172801000] alice) = 3
  /\ User.lockUntil (afterFailures [1000; 86401000; 172801000] alice) = None.
Proof.
  destruct (X15_failures_accumulate_below_threshold ideal_hs256 toy_compare
              env_default [1000; 86401000; 172801000] sampleWorld alice "wrong"
              None None stored_sample_alice eq_refl eq_refl eq_refl eq_refl)
    as (_ & C & L & _).
  split; [exact C | exact L].
Defined.

(** Erin's fifth failure. *)
Lemma X16_failure_locks_from_counter_four_witness :
  fst (login ideal_hs256 toy_compare env_default
         {| cred_email := "erin@x.com"; cred_password := "wrong" |}
         None None 1000 erinWorld) = Thrown invalidCredentials
  /\ User.lockUntil (afterFailure 1000 erin) = Some (1000 + lockTime).
Proof.
  destruct (X16_failure_locks_from_counter_four ideal_hs256 toy_compare
              env_default erinWorld erin "wrong" None None 1000
              stored_erin eq_refl eq_refl eq_refl)
    as (R & _ & _ & Hlock & _).
  split; [exact R|]. exact (proj1 (Hlock ltac:(cbn; lia))).
Defined.

(** Carol, locked until 1800000, presents her password at 1000. *)
Lemma X17_lock_refuses_the_right_password_witness :
  fst (login ideal_hs256 toy_compare env_default
         {| cred_email := "carol@x.com"; cred_password := "Correct#Horse1" |}
         None None 1000 sampleWorld) = Thrown accountLocked.
Proof.
  exact (proj1 (X17_lock_refuses_the_right_password ideal_hs256 toy_compare
                  env_default sampleWorld carol "Correct#Horse1" None None
                  1000 1800000 stored_sample_carol eq_refl eq_refl eq_refl)).
Defined.

(** An id nobody has. *)
Lemma X18_unknown_id_writes_nothing_witness :
  incrementLoginAttempts "u-nobody" 1000 sampleWorld = (Returned tt, sampleWorld)
  /\ changePassword toy_hash toy_compare "u-nobody" "a" "b" 1000 sampleWorld
     = (Returned false, sampleWorld).
Proof.
  destruct (X18_unknown_id_writes_nothing toy_hash toy_compare sampleWorld
              "u-nobody" "a" "b" unlockPatch renameRequest 1000
              eq_refl eq_refl)
    as (_ & _ & I1 & _ & C1).
  split; [exact I1 | exact C1].
Defined.

(** Alice renames herself, sends an empty last name and switches the
    theme. *)
Lemma X21_updateProfile_touches_profile_only_witness :
  exists u',
    fst (updateProfile "u-alice" renameRequest 1000 sampleWorld)
      = Returned (Some u')
    /\ User.firstName u' = "Alicia"
    /\ User.lastName u' = "User"
    /\ User.preferences u'
       = {| theme := Dark; emailNotifications := true; quotesPerPage := 10 |}
    /\ User.password u' = User.password alice.
Proof.
  destruct (X21_updateProfile_touches_profile_only sampleWorld alice
              renameRequest 1000 stored_sample_alice)
    as (u' & R & _ & Hf & Hl & Hp & _ & (_ & _ & _ & Hpw & _) & _).
  exists u'. split; [exact R|]. split; [exact Hf|]. split; [exact Hl|].
  split; [exact Hp | exact Hpw].
Defined.

(** The decorator on four headers: none, an empty bearer token, a token
    that does not decode, and Alice's token. *)
Example authenticate_runs :
  fst (authenticate ideal_hs256 env_default toy_decodeJws
         (sampleRequest None) 1000 sampleWorld)
  = Returned (Replied {| statusCode := 401;
                         rp_error := "Authentication required";
                         rp_code := "AUTH_REQUIRED" |})
  /\ fst (authenticate ideal_hs256 env_default toy_decodeJws
            (sampleRequest (Some "Bearer ")) 1000 sampleWorld)
     = Returned (Replied {| statusCode := 401;
                            rp_error := "Authentication required";
                            rp_code := "AUTH_REQUIRED" |})
  /\ fst (authenticate ideal_hs256 env_default toy_decodeJws
            (sampleRequest (Some "Bearer bogus")) 1000 sampleWorld)
     = Returned (Replied {| statusCode := 401;
                            rp_error := "Invalid or expired token";
                            rp_code := "INVALID_TOKEN" |})
  /\ fst (authenticate ideal_hs256 env_default toy_decodeJws
            (sampleRequest (Some "Bearer alice")) 1000 sampleWorld)
     = Returned (Continued
                   (attachUser (sampleRequest (Some "Bearer alice"))
                      {| ru_userId := "u-alice";
                         ru_email := Some "alice@x.com";
                         ru_role := Some "user" |})).
Proof. repeat split; vm_compute; reflexivity. Qed.
